(** * lazygit, package [commands]: status parsing and rebase orchestration

    A shallow embedding of the Go code of [pkg/commands/git.go]:
    [GetStatusFiles], [MergeStatusFiles], [GenericMerge], [MoveCommitDown],
    [GenerateGenericRebaseTodo], [DiscardOldFileChanges] and
    [BeginInteractiveRebaseForCommit], with the properties the design
    document states about them.

    Conventions.
    - A Go [string] is a byte sequence: Rocq's [string] (a list of 8-bit
      [ascii]); [len] is [String.length].
    - A Go [int] is a 64-bit signed integer, modelled as [Z] with the
      wrap-around of its arithmetic written out ([int_add]).
    - A run-time panic (slice bounds, index out of range) is an explicit
      outcome, distinct from a returned [error] value.
    - External commands are not executed: every call to the operating system
      appends an [Event] to a trace and gets its exit status from an
      arbitrary, history-dependent responder. *)

From Stdlib Require Import String Ascii List ZArith Lia Bool Arith Permutation.
Import ListNotations.
Open Scope string_scope.

(** ** Go run-time behaviour *)

Inductive panic : Type :=
| SliceBoundsOutOfRange
| IndexOutOfRange.

Inductive outcome (A : Type) : Type :=
| Returns (a : A)
| Panics (p : panic).
Arguments Returns {A} a.
Arguments Panics {A} p.

Definition obind {A B : Type} (x : outcome A) (f : A -> outcome B) : outcome B :=
  match x with
  | Returns a => f a
  | Panics p => Panics p
  end.

Declare Scope outcome_scope.
Delimit Scope outcome_scope with outcome.
Notation "'let*' x ':=' e 'in' k" := (obind e (fun x => k))
  (at level 10, x name, e at level 100, k at level 200) : outcome_scope.

(** 64-bit two's complement [int]. *)
Definition int_min : Z := (- 2 ^ 63)%Z.
Definition int_max : Z := (2 ^ 63 - 1)%Z.
Definition wrap (z : Z) : Z := ((z + 2 ^ 63) mod 2 ^ 64 - 2 ^ 63)%Z.
Definition int_add (a b : Z) : Z := wrap (a + b).
Definition int_sub (a b : Z) : Z := wrap (a - b).
Definition is_int (z : Z) : Prop := (int_min <= z <= int_max)%Z.

(** [len(s)] of a slice or a string, as an [int]. *)
Definition len {A : Type} (s : list A) : Z := Z.of_nat (List.length s).

(** [s[lo:hi]] and [s[lo:]] on a string: panics unless [lo <= hi <= len(s)]. *)
Definition str_slice (s : string) (lo hi : nat) : outcome string :=
  if (lo <=? hi)%nat && (hi <=? String.length s)%nat
  then Returns (substring lo (hi - lo) s)
  else Panics SliceBoundsOutOfRange.

Definition str_from (s : string) (lo : nat) : outcome string :=
  str_slice s lo (String.length s).

(** [s[i]] on a slice: panics unless [0 <= i < len(s)]. *)
Definition elem {A : Type} (s : list A) (i : Z) : outcome A :=
  if (i <? 0)%Z then Panics IndexOutOfRange
  else match nth_error s (Z.to_nat i) with
       | Some a => Returns a
       | None => Panics IndexOutOfRange
       end.

(** [s[0:hi]] on a slice.  Go bounds [hi] by the capacity of [s]; the
    capacity is not part of the model and [hi] is checked against [len(s)].
    Every slice expression below is reached with [hi < len(s)] or with an
    [hi] that is negative or has wrapped around, where both checks agree. *)
Definition slice_to {A : Type} (s : list A) (hi : Z) : outcome (list A) :=
  if ((hi <? 0) || (len s <? hi))%Z then Panics SliceBoundsOutOfRange
  else Returns (firstn (Z.to_nat hi) s).

(** Membership of a key in a map literal, [_, ok := map[string]bool{...}[k]]. *)
Definition inKeys (k : string) (keys : list string) : bool :=
  existsb (String.eqb k) keys.

(** ** Data model *)

(** [File] of [pkg/commands/file.go], as the composite literal of
    [GetStatusFiles] fills it. *)
Record File : Type := mkFile {
  Name : string;
  DisplayString : string;
  HasStagedChanges : bool;
  HasUnstagedChanges : bool;
  Tracked : bool;
  Deleted : bool;
  HasMergeConflicts : bool;
  HasInlineMergeConflicts : bool;
  Type_ : string;
  ShortStatus : string
}.

(** [Commit] of [pkg/commands/commit.go]: the fields the rebase code reads. *)
Record Commit : Type := mkCommit {
  Sha : string;
  CommitName : string
}.

(** Go [error] values built by this package: [errors.New(c.Tr.SLocalize(key))],
    [errors.New(msg)], and the error an external call came back with. *)
Inductive error : Type :=
| Localized (key : string)
| Plain (msg : string)
| External (stderr : string).

(** The design document's names for the errors. *)
Definition InsufficientHistory (e : error) : Prop :=
  e = Localized "CannotRebaseOntoFirstCommit" \/
  e = Localized "CannotSquashOntoSecondCommit".
Definition InsufficientRoom (e : error) : Prop := e = Localized "NoRoom".
Definition UnsupportedWithSigning (e : error) : Prop :=
  e = Localized "DisabledForGPG".

(** [exec.Cmd]: the command line and the environment added to it. *)
Record exec_Cmd : Type := mkCmd {
  Line : string;
  Env : list string
}.

(** [OSCommand] of [pkg/commands/os.go], whose code is outside this package
    file: the pure helpers this file calls are taken as they come. *)
Record OSCommand : Type := mkOSCommand {
  Unquote : string -> string;
  Quote : string -> string;
  FileType : string -> string;
  GetLazygitPath : string;
  Environ : list string;                     (* os.Environ() *)
  GetDebug : bool;                           (* c.OSCommand.Config.GetDebug() *)
  PrepareSubProcess : string -> exec_Cmd     (* on Platform.shell, shellArg *)
}.

(** ** StatusParser: [GetStatusFiles] *)

Section StatusParser.

Variable os : OSCommand.

(** The body of the [for _, statusString := range statusStrings] loop. *)
Definition statusFile (statusString : string) : outcome File :=
  (let* change := str_slice statusString 0 2 in
   let* stagedChange := str_slice change 0 1 in
   let* unstagedChange := str_slice statusString 1 2 in
   let* rest := str_from statusString 3 in
   let filename := Unquote os rest in
   let untracked := inKeys change ["??"; "A "; "AM"] in
   let hasNoStagedChanges := inKeys stagedChange [" "; "U"; "?"] in
   let hasMergeConflicts :=
     (change =? "UU") || (change =? "AA") || (change =? "DU") in
   let hasInlineMergeConflicts := (change =? "UU") || (change =? "AA") in
   Returns {|
     Name := filename;
     DisplayString := statusString;
     HasStagedChanges := negb hasNoStagedChanges;
     HasUnstagedChanges := negb (unstagedChange =? " ");
     Tracked := negb untracked;
     Deleted := (unstagedChange =? "D") || (stagedChange =? "D");
     HasMergeConflicts := hasMergeConflicts;
     HasInlineMergeConflicts := hasInlineMergeConflicts;
     Type_ := FileType os filename;
     ShortStatus := change
   |})%outcome.

(** The loop, on the lines [utils.SplitLines] made of the output of
    [git status --porcelain]: [files = append(files, file)]. *)
Fixpoint statusLoop (statusStrings : list string) (files : list File)
  : outcome (list File) :=
  match statusStrings with
  | [] => Returns files
  | statusString :: rest =>
      (let* file := statusFile statusString in
       statusLoop rest (files ++ [file]))%outcome
  end.

Definition GetStatusFiles (statusStrings : list string) : outcome (list File) :=
  statusLoop statusStrings [].

End StatusParser.

(** ** ChangeSetMerger: [MergeStatusFiles] *)

Fixpoint includesInt (list : list nat) (a : nat) : bool :=
  match list with
  | [] => false
  | b :: rest => if (b =? a)%nat then true else includesInt rest a
  end.

(** [for newIndex, newFile := range newFiles { if oldFile.Name == newFile.Name
    { ...; break } }]: the first entry of [newFiles] with the name of
    [oldFile], with its index. *)
Fixpoint findNew (oldFile : File) (newFiles : list File) (newIndex : nat)
  : option (nat * File) :=
  match newFiles with
  | [] => None
  | newFile :: rest =>
      if Name oldFile =? Name newFile then Some (newIndex, newFile)
      else findNew oldFile rest (S newIndex)
  end.

(** One turn of the outer loop on [(result, appendedIndexes)]. *)
Definition retain (newFiles : list File) (acc : list File * list nat)
  (oldFile : File) : list File * list nat :=
  match findNew oldFile newFiles 0 with
  | Some (newIndex, newFile) => ((fst acc ++ [newFile])%list, (snd acc ++ [newIndex])%list)
  | None => acc
  end.

(** [for index, newFile := range newFiles { if !includesInt(...) {...} }]. *)
Fixpoint appendNew (appendedIndexes : list nat) (newFiles : list File)
  (index : nat) (result : list File) : list File :=
  match newFiles with
  | [] => result
  | newFile :: rest =>
      appendNew appendedIndexes rest (S index)
        (if negb (includesInt appendedIndexes index)
         then (result ++ [newFile])%list else result)
  end.

Definition MergeStatusFiles (oldFiles newFiles : list File) : list File :=
  if (len oldFiles =? 0)%Z then newFiles
  else
    let acc := fold_left (retain newFiles) oldFiles ([], []) in
    appendNew (snd acc) newFiles 0 (fst acc).

(** ** RewritePlanBuilder: [GenerateGenericRebaseTodo] *)

(** [todo = a + " " + commit.Sha + " " + commit.Name + "\n" + todo]. *)
Definition todoLine (a : string) (commit : Commit) : string :=
  a ++ " " ++ Sha commit ++ " " ++ CommitName commit ++ String "010" "".

(** [for i, commit := range commits[0:baseIndex]]; [i] counts positions of
    a slice and cannot wrap. *)
Fixpoint todoLoop (actionIndex : Z) (action : string) (commits : list Commit)
  (i : Z) (todo : string) : string :=
  match commits with
  | [] => todo
  | commit :: rest =>
      let a := if (i =? actionIndex)%Z then action else "pick" in
      todoLoop actionIndex action rest (i + 1)%Z (todoLine a commit ++ todo)
  end.

Definition isFold (action : string) : bool :=
  (action =? "squash") || (action =? "fixup").

(** The value of [baseIndex] after the [baseIndex++] of the fold verbs. *)
Definition baseIndexOf (actionIndex : Z) (action : string) : Z :=
  let baseIndex := int_add actionIndex 1 in
  if isFold action then int_add baseIndex 1 else baseIndex.

Definition GenerateGenericRebaseTodo (commits : list Commit) (actionIndex : Z)
  (action : string) : outcome (string * string * option error) :=
  let baseIndex := int_add actionIndex 1 in
  if (len commits <=? baseIndex)%Z
  then Returns ("", "", Some (Localized "CannotRebaseOntoFirstCommit"))
  else
    let baseIndex' := if isFold action then int_add baseIndex 1 else baseIndex in
    if isFold action && (len commits <=? baseIndex')%Z
    then Returns ("", "", Some (Localized "CannotSquashOntoSecondCommit"))
    else
      (let* prefix := slice_to commits baseIndex' in
       let todo := todoLoop actionIndex action prefix 0 "" in
       let* base := elem commits baseIndex' in
       Returns (todo, Sha base, None))%outcome.

(** The rewrite plan of the design document: a list of (verb, commit) pairs,
    oldest first, and its serialisation, one line per entry. *)
Definition RewritePlan : Type := list (string * Commit).

Definition serialize (plan : RewritePlan) : string :=
  fold_right (fun entry rest => todoLine (fst entry) (snd entry) ++ rest) ""
    plan.

(** Verbs by position, newest first, from position [i] on. *)
Fixpoint verbsFrom (actionIndex : Z) (action : string) (i : Z)
  (commits : list Commit) : RewritePlan :=
  match commits with
  | [] => []
  | commit :: rest =>
      ((if (i =? actionIndex)%Z then action else "pick"), commit)
        :: verbsFrom actionIndex action (i + 1)%Z rest
  end.

(** The plan the document describes for [build(commits, actionIndex, verb)]
    with base index [b]. *)
Definition planFor (commits : list Commit) (actionIndex : Z) (action : string)
  (b : nat) : RewritePlan :=
  rev (verbsFrom actionIndex action 0 (firstn b commits)).

(** ** The session: [GitCommand], the operating system and the monad *)

(** What the process asks of the operating system, in the order asked, and
    the calls of a queued closure: [c.OSCommand.RunCommand(command)],
    [c.OSCommand.RunExecutable(cmd)], [c.OSCommand.RunPreparedCommand(cmd)],
    [c.OSCommand.Remove(fileName)] and [f()] in [GenericMerge]. *)
Inductive Event (K : Type) : Type :=
| RunCommand (command : string)
| RunExecutable (cmd : exec_Cmd)
| RunPreparedCommand (cmd : exec_Cmd)
| Remove (fileName : string)
| Invoked (k : K).
Arguments RunCommand {K} command.
Arguments RunExecutable {K} cmd.
Arguments RunPreparedCommand {K} cmd.
Arguments Remove {K} fileName.
Arguments Invoked {K} k.

Definition isInvoked {K : Type} (e : Event K) : bool :=
  match e with
  | Invoked _ => true
  | _ => false
  end.

(** A call that starts a subprocess. *)
Definition isSubprocess {K : Type} (e : Event K) : bool :=
  match e with
  | RunCommand _ | RunExecutable _ | RunPreparedCommand _ => true
  | _ => false
  end.

(** The fields of [GitCommand] this code reads and writes.  [K] names the
    closures [func() error] that can be queued in [onSuccessfulContinue];
    [None] is [nil]. *)
Record GitCommand (K : Type) : Type := mkGitCommand {
  getLocalGitConfig : string -> string * option error;
  getGlobalGitConfig : string -> string * option error;
  onSuccessfulContinue : option K
}.
Arguments mkGitCommand {K} _ _ _.
Arguments getLocalGitConfig {K} g _.
Arguments getGlobalGitConfig {K} g _.
Arguments onSuccessfulContinue {K} g.

(** [strings.ToLower] on the ASCII letters; the four words it is compared
    with below are ASCII and no other letter lower-cases into them. *)
Definition lowerByte (a : ascii) : ascii :=
  let n := nat_of_ascii a in
  if (65 <=? n)%nat && (n <=? 90)%nat then ascii_of_nat (n + 32) else a.

Fixpoint ToLower (s : string) : string :=
  match s with
  | EmptyString => EmptyString
  | String a rest => String (lowerByte a) (ToLower rest)
  end.

Section Session.

Variable K : Type.
Variable os : OSCommand.

(** The exit of every external call: [None] is success, [Some stderr] a
    failure; it may depend on everything that happened before. *)
Variable respond : list (Event K) -> Event K -> option string.

(** A computation reads the events so far and the [GitCommand], and gives
    its result, the [GitCommand] as it leaves it and the events it added, in
    order.  Events are only ever added. *)
Definition M (A : Type) : Type :=
  list (Event K) -> GitCommand K -> outcome A * GitCommand K * list (Event K).

Definition ret {A : Type} (a : A) : M A := fun _ c => (Returns a, c, []).

Definition bind {A B : Type} (m : M A) (f : A -> M B) : M B :=
  fun past c =>
    match m past c with
    | (Returns a, c', added) =>
        let '(r, c'', added') := f a (past ++ added)%list c' in
        (r, c'', (added ++ added')%list)
    | (Panics p, c', added) => (Panics p, c', added)
    end.

Definition lift {A : Type} (o : outcome A) : M A := fun _ c => (o, c, []).

Notation "x <- m ;; k" := (bind m (fun x => k))
  (at level 61, m at next level, right associativity).

(** What a queued closure does when called. *)
Variable run : K -> M (option error).

(** One call to the operating system. *)
Definition call (e : Event K) : M (option error) :=
  fun past c => (Returns (option_map External (respond past e)), c, [e]).

Definition getContinue : M (option K) :=
  fun _ c => (Returns (onSuccessfulContinue c), c, []).

(** [c.onSuccessfulContinue = k]. *)
Definition withContinue (k : option K) (c : GitCommand K) : GitCommand K :=
  mkGitCommand (getLocalGitConfig c) (getGlobalGitConfig c) k.

Definition setContinue (k : option K) : M unit :=
  fun _ c => (Returns tt, withContinue k c, []).

(** [f()]. *)
Definition invoke (f : K) : M (option error) :=
  fun past c =>
    let '(r, c', added) := run f (past ++ [Invoked f])%list c in
    (r, c', Invoked f :: added).

Definition usingGpg (c : GitCommand K) : bool :=
  let gpgsign := fst (getLocalGitConfig c "commit.gpgsign") in
  let gpgsign :=
    if gpgsign =? "" then fst (getGlobalGitConfig c "commit.gpgsign")
    else gpgsign in
  let value := ToLower gpgsign in
  (value =? "true") || (value =? "1") || (value =? "yes") || (value =? "on").

(** A query of the configuration inside an operation.  The two lookups are
    fields of the struct, as in the source, and a field is read here as a
    function of the key alone: the answer is that of the [GitCommand] at the
    time of the query, and a configuration that changes under a running
    operation is outside this model. *)
Definition getUsingGpg : M bool := fun _ c => (Returns (usingGpg c), c, []).

Definition AmendHead : M (option exec_Cmd * option error) :=
  let command := "git commit --amend --no-edit --allow-empty" in
  gpg <- getUsingGpg ;;
  if gpg then ret (Some (PrepareSubProcess os command), None)
  else
    err <- call (RunCommand command) ;;
    ret (None, err).

Definition StageFile (fileName : string) : M (option error) :=
  call (RunCommand ("git add " ++ Quote os fileName)).

Definition CheckoutFile (commitSha fileName : string) : M (option error) :=
  call (RunCommand ("git checkout " ++ commitSha ++ " " ++ fileName)).

Definition RunSkipEditorCommand (command : string) : M (option error) :=
  call (RunExecutable
          (mkCmd command
             ["LAZYGIT_CLIENT_COMMAND=EXIT_IMMEDIATELY";
              "EDITOR=" ++ GetLazygitPath os])).

(** ** RewriteDriver: [GenericMerge] *)

Definition GenericMerge (commandType command : string) : M (option error) :=
  err <- RunSkipEditorCommand ("git " ++ commandType ++ " --" ++ command) ;;
  match err with
  | Some e => ret (Some e)
  | None =>
      pending <- getContinue ;;
      match (commandType =? "rebase") && (command =? "continue"), pending with
      | true, Some f =>
          _ <- setContinue None ;;
          invoke f
      | _, _ =>
          _ <- (if command =? "abort" then setContinue None else ret tt) ;;
          ret None
      end
  end.

(** A user issuing one continue/abort/skip after the other. *)
Fixpoint GenericMerges (commands : list (string * string)) : M unit :=
  match commands with
  | [] => ret tt
  | (commandType, command) :: rest =>
      _ <- GenericMerge commandType command ;;
      GenericMerges rest
  end.

Definition PrepareInteractiveRebaseCommand (baseSha todo : string)
  (overrideEditor : bool) : exec_Cmd * option error :=
  let ex := GetLazygitPath os in
  let debug := if GetDebug os then "TRUE" else "FALSE" in
  let line :=
    "git rebase --interactive --autostash --keep-empty --rebase-merges "
    ++ baseSha in
  let gitSequenceEditor := if todo =? "" then "true" else ex in
  let env :=
    List.app (Environ os)
      ["LAZYGIT_CLIENT_COMMAND=INTERACTIVE_REBASE";
       "LAZYGIT_REBASE_TODO=" ++ todo;
       "DEBUG=" ++ debug;
       "LANG=en_US.UTF-8";
       "LC_ALL=en_US.UTF-8";
       "GIT_SEQUENCE_EDITOR=" ++ gitSequenceEditor] in
  let env := if overrideEditor then List.app env ["EDITOR=" ++ ex] else env in
  (mkCmd line env, None).

(** ** [MoveCommitDown] *)

(** [append(commits[0:index], commits[index+1], commits[index])]: the
    operands are read first; the two values are then written behind
    [commits[0:index]] into the array [commits] itself lies in, which has
    room for them.  The result is the new slice with [commits] as it reads
    afterwards. *)
Definition swapOrder (commits : list Commit) (index : Z)
  : outcome (list Commit * list Commit) :=
  (let* head := slice_to commits index in
   let* below := elem commits (int_add index 1) in
   let* selected := elem commits index in
   let orderedCommits := (head ++ [below; selected])%list in
   Returns (orderedCommits,
            (orderedCommits ++ skipn (List.length orderedCommits) commits)%list)
  )%outcome.

Definition MoveCommitDown (commits : list Commit) (index : Z)
  : M (option error) :=
  if (len commits <=? int_add index 2)%Z
  then ret (Some (Localized "NoRoom"))
  else
    ordered <- lift (swapOrder commits index) ;;
    let todo :=
      fold_left (fun todo commit => todoLine "pick" commit ++ todo)
        (fst ordered) "" in
    base <- lift (elem (snd ordered) (int_add index 2)) ;;
    let prepared := PrepareInteractiveRebaseCommand (Sha base) todo true in
    match snd prepared with
    | Some e => ret (Some e)
    | None => call (RunPreparedCommand (fst prepared))
    end.

(** ** FileOpOrchestrator *)

Definition BeginInteractiveRebaseForCommit (commits : list Commit)
  (commitIndex : Z) : M (option error) :=
  if (int_sub (len commits) 1 <? commitIndex)%Z
  then ret (Some (Plain "index outside of range of commits"))
  else
    gpg <- getUsingGpg ;;
    if gpg then ret (Some (Localized "DisabledForGPG"))
    else
      built <- lift (GenerateGenericRebaseTodo commits commitIndex "edit") ;;
      let '(todo, sha, err) := built in
      match err with
      | Some e => ret (Some e)
      | None =>
          let prepared := PrepareInteractiveRebaseCommand sha todo true in
          match snd prepared with
          | Some e => ret (Some e)
          | None => call (RunPreparedCommand (fst prepared))
          end
      end.

Definition DiscardOldFileChanges (commits : list Commit) (commitIndex : Z)
  (fileName : string) : M (option error) :=
  err <- BeginInteractiveRebaseForCommit commits commitIndex ;;
  match err with
  | Some e => ret (Some e)
  | None =>
      probe <- call (RunCommand ("git cat-file -e HEAD^:" ++ fileName)) ;;
      err <- match probe with
             | Some _ =>
                 err <- call (Remove fileName) ;;
                 match err with
                 | Some e => ret (Some e)
                 | None => StageFile fileName
                 end
             | None => CheckoutFile "HEAD^" fileName
             end ;;
      match err with
      | Some e => ret (Some e)
      | None =>
          amended <- AmendHead ;;
          match amended with
          | (Some _, _) => ret (Some (Plain "received unexpected pointer to cmd"))
          | (None, Some e) => ret (Some e)
          | (None, None) => GenericMerge "rebase" "continue"
          end
      end
  end.

End Session.

Arguments ret {K A} a _ _.
Arguments bind {K A B} m f _ _.

Arguments lift {K A} o _ _.
Arguments call {K} respond e _ _.
Arguments invoke {K} run f _ _.
Arguments withContinue {K} k c.
Arguments setContinue {K} k _ _.
Arguments getContinue {K} _ _.
Arguments usingGpg {K} c.
Arguments getUsingGpg {K} _ _.
Arguments AmendHead {K} os respond _ _.
Arguments StageFile {K} os respond fileName _ _.
Arguments CheckoutFile {K} respond commitSha fileName _ _.
Arguments RunSkipEditorCommand {K} os respond command _ _.
Arguments GenericMerge {K} os respond run commandType command _ _.
Arguments GenericMerges {K} os respond run commands _ _.
Arguments MoveCommitDown {K} os respond commits index _ _.
Arguments BeginInteractiveRebaseForCommit {K} os respond commits commitIndex _ _.
Arguments DiscardOldFileChanges {K} os respond run commits commitIndex fileName _ _.

(** ** Vocabulary of the properties *)

(** A status line long enough for the three slice expressions of the parser. *)
Definition wellFormed (statusString : string) : bool :=
  (3 <=? String.length statusString)%nat.

(** [file] is what the parser makes of [statusString]. *)
Definition parsedFrom (os : OSCommand) (statusString : string) (file : File)
  : Prop :=
  statusFile os statusString = Returns file.

(** The conflict flags of a parsed line, by its two-byte code. *)
Definition conflictFlags (statusString : string) (file : File) : Prop :=
  let code := substring 0 2 statusString in
  ShortStatus file = code /\
  (HasMergeConflicts file = true <->
   code = "UU" \/ code = "AA" \/ code = "DU") /\
  (HasInlineMergeConflicts file = true <-> code = "UU" \/ code = "AA") /\
  (HasInlineMergeConflicts file = true -> HasMergeConflicts file = true).

(** The merge as the design document words it. *)
Definition sameName (a b : File) : bool := Name a =? Name b.

(** The new entry that stands in for an old one: the first of its name. *)
Definition matching (newFiles : list File) (oldFile : File) : option File :=
  find (sameName oldFile) newFiles.

Definition toList {A : Type} (o : option A) : list A :=
  match o with
  | Some a => [a]
  | None => []
  end.

(** [old] walked in order, each entry replaced by its match or dropped. *)
Definition replaced (newFiles oldFiles : list File) : list File :=
  flat_map (fun oldFile => toList (matching newFiles oldFile)) oldFiles.

(** The new entries no old entry consumed, in their order; [seen] holds the
    new entries before the current one.  An entry is consumed when an old
    entry has its name and no earlier new entry has. *)
Fixpoint remaining (oldFiles seen newFiles : list File) : list File :=
  match newFiles with
  | [] => []
  | newFile :: rest =>
      let consumed :=
        existsb (fun oldFile => sameName oldFile newFile) oldFiles &&
        negb (existsb (fun earlier => sameName earlier newFile) seen) in
      ((if consumed then [] else [newFile]) ++
       remaining oldFiles (seen ++ [newFile]) rest)%list
  end.

(** The entries of a list with their positions, counted from [i]. *)
Fixpoint indexedFrom {A : Type} (i : nat) (l : list A) : list (nat * A) :=
  match l with
  | [] => []
  | a :: rest => (i, a) :: indexedFrom (S i) rest
  end.

(** What the outer loop of [MergeStatusFiles] finds, old entry by old entry. *)
Definition hits (newFiles oldFiles : list File) : list (nat * File) :=
  flat_map (fun oldFile => toList (findNew oldFile newFiles 0)) oldFiles.

(** [build] returned an error with property [P]. *)
Definition failsWith (P : error -> Prop)
  (r : outcome (string * string * option error)) : Prop :=
  exists todo sha e, r = Returns (todo, sha, Some e) /\ P e.

(** An [int] that can be incremented twice without wrapping around. *)
Definition indexInRange (i : Z) : Prop := (int_min <= i <= int_max - 2)%Z.

(** The call to the operating system [GenericMerge] makes. *)
Definition mergeEvent {K : Type} (os : OSCommand) (commandType command : string)
  : Event K :=
  RunExecutable
    (mkCmd ("git " ++ commandType ++ " --" ++ command)
       ["LAZYGIT_CLIENT_COMMAND=EXIT_IMMEDIATELY";
        "EDITOR=" ++ GetLazygitPath os]).

(** No closure was called among these events. *)
Definition noneInvoked {K : Type} (events : list (Event K)) : Prop :=
  existsb isInvoked events = false.

(** A plan that picks every commit of a list. *)
Definition picks (commits : list Commit) : RewritePlan :=
  map (fun commit => ("pick", commit)) commits.

(** The rebase an operation starts, with the editor overridden. *)
Definition rebaseEvent {K : Type} (os : OSCommand) (baseSha todo : string)
  : Event K :=
  RunPreparedCommand (fst (PrepareInteractiveRebaseCommand os baseSha todo true)).

(** The operation returned an error with property [P]. *)
Definition returnsError {K : Type} (P : error -> Prop)
  (r : outcome (option error) * GitCommand K * list (Event K)) : Prop :=
  exists e, fst (fst r) = Returns (Some e) /\ P e.

(** The external calls of [DiscardOldFileChanges] after the rebase has
    begun: the probe, and then the steps for a file that is not in the parent
    and for one that is. *)
Definition probeEvent {K : Type} (fileName : string) : Event K :=
  RunCommand ("git cat-file -e HEAD^:" ++ fileName).

Definition amendEvent {K : Type} : Event K :=
  RunCommand "git commit --amend --no-edit --allow-empty".

Definition checkoutEvent {K : Type} (fileName : string) : Event K :=
  RunCommand ("git checkout HEAD^ " ++ fileName).

Definition removal {K : Type} (os : OSCommand) (fileName : string)
  : list (Event K) :=
  [Remove fileName; RunCommand ("git add " ++ Quote os fileName); amendEvent;
   mergeEvent os "rebase" "continue"].

Definition restore {K : Type} (os : OSCommand) (fileName : string)
  : list (Event K) :=
  [checkoutEvent fileName; amendEvent; mergeEvent os "rebase" "continue"].

(** Each of [events], issued in turn after [past], succeeds. *)
Fixpoint succeedInTurn {K : Type}
  (respond : list (Event K) -> Event K -> option string)
  (past events : list (Event K)) : Prop :=
  match events with
  | [] => True
  | e :: rest =>
      respond past e = None /\ succeedInTurn respond (past ++ [e])%list rest
  end.

(** How the operation ends once its own calls [steps] are done: with nothing
    pending it returns; otherwise [GenericMerge] clears the pending closure
    and calls it. *)
Definition thenContinue {K : Type}
  (run : K -> list (Event K) -> GitCommand K ->
         outcome (option error) * GitCommand K * list (Event K))
  (past : list (Event K)) (c : GitCommand K) (steps : list (Event K))
  : outcome (option error) * GitCommand K * list (Event K) :=
  match onSuccessfulContinue c with
  | None => (Returns None, c, steps)
  | Some f =>
      let '(r, c', added) :=
        run f (past ++ steps ++ [Invoked f])%list (withContinue None c) in
      (r, c', (steps ++ Invoked f :: added)%list)
  end.

(** ** A dummy session, after [NewDummyGitCommand] of the tests *)

Definition dummyOS : OSCommand :=
  {| Unquote := fun s => s;
     Quote := fun s => "'" ++ s ++ "'";
     FileType := fun _ => "other";
     GetLazygitPath := "lazygit";
     Environ := [];
     GetDebug := false;
     PrepareSubProcess := fun command => mkCmd ("bash -c " ++ command) [] |}.

(** A configuration that answers [value] for every key, locally. *)
Definition dummyGit (value : string) (pending : option nat) : GitCommand nat :=
  mkGitCommand (fun _ => (value, None)) (fun _ => ("", None)) pending.

(** Every external call succeeds. *)
Definition allSucceed : list (Event nat) -> Event nat -> option string :=
  fun _ _ => None.

(** Every external call fails. *)
Definition allFail : list (Event nat) -> Event nat -> option string :=
  fun _ _ => Some "exit status 1".

(** Only [git rebase --abort] fails, as when no rebase is in progress. *)
Definition abortFails : list (Event nat) -> Event nat -> option string :=
  fun _ e =>
    match e with
    | RunExecutable cmd =>
        if Line cmd =? "git rebase --abort"
        then Some "fatal: No rebase in progress?"
        else None
    | _ => None
    end.

(** Only the probe [git cat-file -e] fails: the file is not in the parent. *)
Definition absentInParent : list (Event nat) -> Event nat -> option string :=
  fun _ e =>
    match e with
    | RunCommand command =>
        if prefix "git cat-file -e " command then Some "exit status 128"
        else None
    | _ => None
    end.

(** Closures that do nothing and succeed. *)
Definition runNothing : nat -> M nat (option error) := fun _ => ret None.

Definition threeCommits : list Commit :=
  [mkCommit "c3" "third"; mkCommit "c2" "second"; mkCommit "c1" "first"].

Definition fourCommits : list Commit :=
  mkCommit "c4" "fourth" :: threeCommits.

Definition fileNamed (name status : string) : File :=
  mkFile name (status ++ " " ++ name) false false true false false false
    "other" status.

(** * More of the package *)

(** ** Go's [strings.Split] and [strings.Join]

    [Split] is modelled for a separator that is not empty, which is how every
    call below uses it: the string is cut at each occurrence of the separator,
    found from the left, occurrences not overlapping. *)

(** [skip] bytes of a separator just found are still to be passed over;
    [cur] is the piece collected since the last cut. *)
Fixpoint splitFrom (sep s : string) (skip : nat) (cur : string) : list string :=
  match s with
  | EmptyString => [cur]
  | String a rest =>
      match skip with
      | S k => splitFrom sep rest k cur
      | O =>
          if prefix sep s
          then cur :: splitFrom sep rest (String.length sep - 1) ""
          else splitFrom sep rest 0 (cur ++ String a "")
      end
  end.

Definition Split (s sep : string) : list string := splitFrom sep s 0 "".

Definition Join (elems : list string) (sep : string) : string :=
  String.concat sep elems.

(** [strings.HasPrefix(s, p)]. *)
Definition HasPrefix (s p : string) : bool := prefix p s.

(** [s[lo:]] on a slice: panics unless [0 <= lo <= len(s)]. *)
Definition slice_from {A : Type} (s : list A) (lo : Z) : outcome (list A) :=
  if ((lo <? 0) || (len s <? lo))%Z then Panics SliceBoundsOutOfRange
  else Returns (skipn (Z.to_nat lo) s).

(** [s[i] = v] on a slice: panics unless [0 <= i < len(s)]. *)
Definition store {A : Type} (s : list A) (i : Z) (v : A) : outcome (list A) :=
  if ((i <? 0) || (len s <=? i))%Z then Panics IndexOutOfRange
  else Returns (firstn (Z.to_nat i) s ++ v :: skipn (S (Z.to_nat i)) s)%list.

(** ** The todo file of a rebase in progress *)

(** [getTodoCommitCount]: the lines that are neither blank nor comments.
    [commitCount] counts lines of a slice and cannot wrap. *)
Fixpoint countTodo (content : list string) (commitCount : Z) : Z :=
  match content with
  | [] => commitCount
  | line :: rest =>
      countTodo rest
        (if negb (line =? "") && negb (HasPrefix line "#")
         then (commitCount + 1)%Z else commitCount)
  end.

Definition getTodoCommitCount (content : list string) : Z :=
  countTodo content 0.

(** How [EditRebaseTodo] and [MoveTodoDown] end when they do not panic: with
    the error of [ioutil.ReadFile], or with the call
    [ioutil.WriteFile(fileName, []byte(result), 0644)], whose error they
    return. *)
Inductive todoEdit : Type :=
| ReadError (err : error)
| WriteFile (fileName result : string).

Definition newline : string := String "010" "".

Section TodoFile.

Variable DotGitDir : string.

(** [ioutil.ReadFile]: the bytes of the file, or an error. *)
Variable ReadFile : string -> string + error.

Definition todoFileName : string :=
  DotGitDir ++ "/rebase-merge/git-rebase-todo".

Definition EditRebaseTodo (index : Z) (action : string) : outcome todoEdit :=
  let fileName := todoFileName in
  match ReadFile fileName with
  | inr err => Returns (ReadError err)
  | inl bytes =>
      let content := Split bytes newline in
      let commitCount := getTodoCommitCount content in
      let contentIndex := int_sub (int_sub commitCount 1) index in
      (let* line := elem content contentIndex in
       let splitLine := Split line " " in
       let* words := slice_from splitLine 1 in
       let* content := store content contentIndex
                         (action ++ " " ++ Join words " ") in
       let result := Join content newline in
       Returns (WriteFile fileName result))%outcome
  end.

(** The two [append]s of [MoveTodoDown].  The first writes the two lines
    behind [content[0:contentIndex-1]] into the array of [content], which
    has room for them; [content[contentIndex+1:]] is read after that, from
    the array as it then is, and appended in place as well. *)
Definition swapLines (content : list string) (contentIndex : Z)
  : outcome (list string) :=
  (let* head := slice_to content (int_sub contentIndex 1) in
   let* line := elem content contentIndex in
   let* above := elem content (int_sub contentIndex 1) in
   let rearrangedContent := (head ++ [line; above])%list in
   let content :=
     (rearrangedContent ++ skipn (List.length rearrangedContent) content)%list in
   let* rest := slice_from content (int_add contentIndex 1) in
   Returns (rearrangedContent ++ rest)%list)%outcome.

Definition MoveTodoDown (index : Z) : outcome todoEdit :=
  let fileName := todoFileName in
  match ReadFile fileName with
  | inr err => Returns (ReadError err)
  | inl bytes =>
      let content := Split bytes newline in
      let commitCount := getTodoCommitCount content in
      let contentIndex := int_sub (int_sub commitCount 1) index in
      (let* rearrangedContent := swapLines content contentIndex in
       let result := Join rearrangedContent newline in
       Returns (WriteFile fileName result))%outcome
  end.

End TodoFile.

(** ** More operations of the session *)

Section Operations.

Variable K : Type.
Variable os : OSCommand.
Variable respond : list (Event K) -> Event K -> option string.

(** [c.removeFile], a field of [GitCommand] that holds a function
    ([os.RemoveAll], or what a test puts there). *)
Variable removeFile : string -> M K (option error).

Notation "x <- m ;; k" := (bind m (fun x => k))
  (at level 61, m at next level, right associativity).

(** The loop of [UnStageFile] over the names of a rename. *)
Fixpoint unstageNames (command : string) (fileNames : list string)
  : M K (option error) :=
  match fileNames with
  | [] => ret None
  | name :: rest =>
      err <- call respond (RunCommand (command ++ Quote os name)) ;;
      match err with
      | Some e => ret (Some e)
      | None => unstageNames command rest
      end
  end.

(** [fmt.Sprintf(command, quoted)] puts the quoted name at the [%s] that
    ends [command]. *)
Definition UnStageFile (fileName : string) (tracked : bool)
  : M K (option error) :=
  let command := if tracked then "git reset HEAD " else "git rm --cached " in
  let fileNames := Split fileName " -> " in
  unstageNames command fileNames.

Definition DiscardUnstagedFileChanges (file : File) : M K (option error) :=
  let quotedFileName := Quote os (Name file) in
  call respond (RunCommand ("git checkout -- " ++ quotedFileName)).

Definition DiscardAllFileChanges (file : File) : M K (option error) :=
  let quotedFileName := Quote os (Name file) in
  err <- (if HasStagedChanges file || HasMergeConflicts file
          then call respond (RunCommand ("git reset -- " ++ quotedFileName))
          else ret None) ;;
  match err with
  | Some e => ret (Some e)
  | None =>
      if negb (Tracked file) then removeFile (Name file)
      else DiscardUnstagedFileChanges file
  end.

(** [RewordCommit] prepares the rebase and hands it back; it runs nothing. *)
Definition RewordCommit (commits : list Commit) (index : Z)
  : outcome (option exec_Cmd * option error) :=
  (let* built := GenerateGenericRebaseTodo commits index "reword" in
   let '(todo, sha, err) := built in
   match err with
   | Some e => Returns (None, Some e)
   | None =>
       let prepared := PrepareInteractiveRebaseCommand os sha todo false in
       Returns (Some (fst prepared), snd prepared)
   end)%outcome.

Definition InteractiveRebase (commits : list Commit) (index : Z)
  (action : string) : M K (option error) :=
  built <- lift (GenerateGenericRebaseTodo commits index action) ;;
  let '(todo, sha, err) := built in
  match err with
  | Some e => ret (Some e)
  | None =>
      let prepared := PrepareInteractiveRebaseCommand os sha todo true in
      match snd prepared with
      | Some e => ret (Some e)
      | None => call respond (RunPreparedCommand (fst prepared))
      end
  end.

Definition CherryPickCommits (commits : list Commit) : M K (option error) :=
  let todo :=
    fold_left (fun todo commit => todoLine "pick" commit ++ todo) commits "" in
  let prepared := PrepareInteractiveRebaseCommand os "HEAD" todo false in
  match snd prepared with
  | Some e => ret (Some e)
  | None => call respond (RunPreparedCommand (fst prepared))
  end.

End Operations.

Arguments unstageNames {K} os respond command fileNames _ _.
Arguments UnStageFile {K} os respond fileName tracked _ _.
Arguments DiscardUnstagedFileChanges {K} os respond file _ _.
Arguments DiscardAllFileChanges {K} os respond removeFile file _ _.
Arguments InteractiveRebase {K} os respond commits index action _ _.
Arguments CherryPickCommits {K} os respond commits _ _.

(** ** Vocabulary of the further properties *)

(** The byte [c] occurs in [s]. *)
Fixpoint contains (c : ascii) (s : string) : bool :=
  match s with
  | EmptyString => false
  | String a rest => if Ascii.eqb a c then true else contains c rest
  end.

(** What follows the first [c] in [s]; nothing when there is none. *)
Fixpoint afterByte (c : ascii) (s : string) : string :=
  match s with
  | EmptyString => EmptyString
  | String a rest => if Ascii.eqb a c then rest else afterByte c rest
  end.

(** What precedes the first [c] in [s]; all of it when there is none. *)
Fixpoint beforeByte (c : ascii) (s : string) : string :=
  match s with
  | EmptyString => EmptyString
  | String a rest =>
      if Ascii.eqb a c then EmptyString else String a (beforeByte c rest)
  end.

(** A line of the todo file that stands for a commit. *)
Definition isTodoLine (line : string) : bool :=
  negb (line =? "") && negb (HasPrefix line "#").

(** A list with the element at position [i] replaced. *)
Definition replaceAt {A : Type} (l : list A) (i : nat) (a : A) : list A :=
  (firstn i l ++ a :: skipn (S i) l)%list.

(** A list with the elements at positions [i] and [i + 1] exchanged. *)
Definition swapAt {A : Type} (l : list A) (i : nat) : list A :=
  match skipn i l with
  | a :: b :: rest => (firstn i l ++ b :: a :: rest)%list
  | _ => l
  end.

(** A todo file as git writes it: the commits, oldest first, a blank line
    and comments. *)
Definition todoBytes : string :=
  "pick a1 one" ++ newline ++ "pick b2 two" ++ newline ++
  "pick c3 three" ++ newline ++ newline ++ "# Rebase" ++ newline.

Definition todoReadFile : string -> string + error := fun _ => inl todoBytes.

(** What the parser keeps of a line: the line itself, its code and, unquoted,
    what follows the code and one more byte. *)
Definition keptFrom (os : OSCommand) (statusString : string) (file : File)
  : Prop :=
  DisplayString file = statusString /\
  ShortStatus file = substring 0 2 statusString /\
  Name file =
    Unquote os (substring 3 (String.length statusString - 3) statusString) /\
  Type_ file = FileType os (Name file).

(** What holds of every file the parser makes, whatever the line. *)
Definition parsedInvariant (file : File) : Prop :=
  (HasMergeConflicts file = true ->
   Tracked file = true /\ HasUnstagedChanges file = true) /\
  (Tracked file = false ->
   HasStagedChanges file || HasUnstagedChanges file = true) /\
  (Deleted file = true ->
   HasStagedChanges file || HasUnstagedChanges file = true).

(** [l1] is the beginning of [l2]. *)
Definition isPrefixOf {A : Type} (l1 l2 : list A) : Prop :=
  exists rest, l2 = (l1 ++ rest)%list.

(** The commands of [UnStageFile], name by name. *)
Definition unstageEvents {K : Type} (os : OSCommand) (tracked : bool)
  (fileNames : list string) : list (Event K) :=
  map (fun name =>
         RunCommand ((if tracked then "git reset HEAD "
                      else "git rm --cached ") ++ Quote os name))
    fileNames.

(** The commands of [DiscardAllFileChanges]. *)
Definition resetEvent {K : Type} (os : OSCommand) (file : File) : Event K :=
  RunCommand ("git reset -- " ++ Quote os (Name file)).

Definition checkoutFileEvent {K : Type} (os : OSCommand) (file : File)
  : Event K :=
  RunCommand ("git checkout -- " ++ Quote os (Name file)).

(** The value [usingGpg] looks at: the local one unless it is empty. *)
Definition gpgsign {K : Type} (c : GitCommand K) : string :=
  let value := fst (getLocalGitConfig c "commit.gpgsign") in
  if value =? "" then fst (getGlobalGitConfig c "commit.gpgsign") else value.

(** Two stand-ins for [removeFile]: one succeeds, one fails. *)
Definition removeNothing : string -> M nat (option error) :=
  fun _ => ret None.

Definition removeFails : string -> M nat (option error) :=
  fun _ => ret (Some (Plain "cannot remove")).

(** * Properties *)

(** ** StatusParser *)

Section StatusParserFacts.

Variable os : OSCommand.

Lemma substring_all (t : string) : substring 0 (String.length t) t = t.
Proof. induction t; cbn; [reflexivity | now rewrite IHt]. Qed.

(** A line of three bytes or more, field by field. *)
Lemma statusFile_long (a b c : ascii) (rest : string) :
  let change := String a (String b EmptyString) in
  let stagedChange := String a EmptyString in
  let unstagedChange := String b EmptyString in
  statusFile os (String a (String b (String c rest))) =
  Returns {|
    Name := Unquote os rest;
    DisplayString := String a (String b (String c rest));
    HasStagedChanges := negb (inKeys stagedChange [" "; "U"; "?"]);
    HasUnstagedChanges := negb (unstagedChange =? " ");
    Tracked := negb (inKeys change ["??"; "A "; "AM"]);
    Deleted := (unstagedChange =? "D") || (stagedChange =? "D");
    HasMergeConflicts :=
      (change =? "UU") || (change =? "AA") || (change =? "DU");
    HasInlineMergeConflicts := (change =? "UU") || (change =? "AA");
    Type_ := FileType os (Unquote os rest);
    ShortStatus := change
  |}.
Proof.
  unfold statusFile, str_from, str_slice. cbn [String.length Nat.leb andb].
  replace (S (S (S (String.length rest))) - 3)%nat with (String.length rest)
    by lia.
  cbn -[String.eqb inKeys]. rewrite Nat.leb_refl. cbn -[String.eqb inKeys].
  now rewrite substring_all.
Qed.

Lemma statusFile_wellFormed (statusString : string) :
  wellFormed statusString = true ->
  exists file, statusFile os statusString = Returns file /\
               DisplayString file = statusString.
Proof.
  unfold wellFormed.
  destruct statusString as [|a [|b [|c rest]]]; intros H;
    try (cbn in H; discriminate).
  rewrite statusFile_long. now eexists.
Qed.

Lemma statusFile_short (statusString : string) :
  wellFormed statusString = false ->
  statusFile os statusString = Panics SliceBoundsOutOfRange.
Proof.
  unfold wellFormed.
  destruct statusString as [|a [|b [|c rest]]]; cbn; try reflexivity.
  discriminate.
Qed.

Lemma statusLoop_returns (statusStrings : list string) :
  forall files out,
    statusLoop os statusStrings files = Returns out ->
    exists parsed,
      out = (files ++ parsed)%list /\
      Forall2 (parsedFrom os) statusStrings parsed.
Proof.
  induction statusStrings as [|l ls IH]; cbn; intros files out H.
  - injection H as <-. exists []. now rewrite app_nil_r.
  - destruct (statusFile os l) as [f|p] eqn:E; cbn in H; [|discriminate].
    apply IH in H as (parsed & -> & HF).
    exists (f :: parsed). rewrite <- app_assoc. split; [reflexivity|].
    now constructor.
Qed.

Lemma statusLoop_wellFormed (statusStrings : list string) :
  forallb wellFormed statusStrings = true ->
  forall files, exists out, statusLoop os statusStrings files = Returns out.
Proof.
  induction statusStrings as [|l ls IH]; cbn; intros H files.
  - now eexists.
  - apply andb_true_iff in H as [Hl Hls].
    destruct (statusFile_wellFormed l Hl) as (f & -> & _). cbn.
    now apply IH.
Qed.

Lemma statusLoop_malformed (statusStrings : list string) :
  forallb wellFormed statusStrings = false ->
  forall files,
    statusLoop os statusStrings files = Panics SliceBoundsOutOfRange.
Proof.
  induction statusStrings as [|l ls IH]; intros H files;
    cbn [forallb] in H; cbn [statusLoop].
  - discriminate.
  - destruct (wellFormed l) eqn:Hl; cbn [andb] in H.
    + destruct (statusFile_wellFormed l Hl) as (f & -> & _).
      cbn [obind]. now apply IH.
    + now rewrite (statusFile_short l Hl).
Qed.

End StatusParserFacts.

Lemma parsedFrom_conflictFlags (os : OSCommand) (statusString : string)
  (file : File) :
  parsedFrom os statusString file -> conflictFlags statusString file.
Proof.
  unfold parsedFrom. intros H.
  destruct (wellFormed statusString) eqn:Hw.
  2:{ rewrite (statusFile_short os _ Hw) in H. discriminate. }
  destruct statusString as [|a [|b [|c rest]]]; try (cbn in Hw; discriminate).
  rewrite statusFile_long in H. injection H as <-.
  unfold conflictFlags. cbn [substring ShortStatus HasMergeConflicts
                              HasInlineMergeConflicts].
  clear Hw.
  destruct (Ascii.eqb_spec a "U"), (Ascii.eqb_spec b "U"),
    (Ascii.eqb_spec a "A"), (Ascii.eqb_spec b "A"), (Ascii.eqb_spec a "D");
    subst; cbn; intuition (try discriminate; try congruence).
Qed.

(** C2, as the code has it: the parser is a function of the status lines
    alone; when every line has at least 3 bytes it returns one [File] per
    line, in order; when some line is shorter it returns nothing at all: a
    slice expression goes out of range and the run-time panics.  There is
    no error result. *)
Theorem GetStatusFiles_outcome (os : OSCommand) (statusStrings : list string) :
  (forallb wellFormed statusStrings = true /\
   exists files,
     GetStatusFiles os statusStrings = Returns files /\
     Forall2 (parsedFrom os) statusStrings files) \/
  (forallb wellFormed statusStrings = false /\
   GetStatusFiles os statusStrings = Panics SliceBoundsOutOfRange).
Proof.
  unfold GetStatusFiles.
  destruct (forallb wellFormed statusStrings) eqn:H; [left | right];
    (split; [reflexivity|]).
  - destruct (statusLoop_wellFormed os _ H []) as [out Hout].
    exists out. split; [assumption|].
    apply statusLoop_returns in Hout as (parsed & -> & HF). exact HF.
  - now apply statusLoop_malformed.
Qed.

(** C2, as stated, fails: a line shorter than 3 bytes makes the parser
    panic, where the claim has it signal an error and not crash. *)
Lemma GetStatusFiles_short_line_panics :
  GetStatusFiles dummyOS ["MM file1.txt"; "M"] = Panics SliceBoundsOutOfRange /\
  ~ exists files,
      GetStatusFiles dummyOS ["MM file1.txt"; "M"] = Returns files.
Proof.
  split; [reflexivity|]. intros [files H]. vm_compute in H. discriminate.
Qed.

(** C7: every [File] the parser returns has [HasMergeConflicts] exactly for
    the codes UU, AA and DU, [HasInlineMergeConflicts] exactly for UU and AA
    (so not for DU), and hence the inline flag implies the conflict flag. *)
Theorem GetStatusFiles_conflict_flags (os : OSCommand)
  (statusStrings : list string) (files : list File) :
  GetStatusFiles os statusStrings = Returns files ->
  Forall2 conflictFlags statusStrings files.
Proof.
  intros H. apply statusLoop_returns in H as (parsed & -> & HF). cbn.
  induction HF as [|l f ls fs Hf _ IH]; constructor;
    [exact (parsedFrom_conflictFlags os l f Hf) | exact IH].
Qed.

Lemma GetStatusFiles_conflict_flags_witness :
  Forall2 conflictFlags ["UU file5.txt"; "AA both.txt"; "DU gone.txt"]
    [mkFile "file5.txt" "UU file5.txt" false true true false true true
       "other" "UU";
     mkFile "both.txt" "AA both.txt" true true true false true true
       "other" "AA";
     mkFile "gone.txt" "DU gone.txt" true true true true true false
       "other" "DU"].
Proof.
  apply (GetStatusFiles_conflict_flags dummyOS). reflexivity.
Defined.

(** ** ChangeSetMerger *)

Lemma includesInt_In (list : list nat) (a : nat) :
  includesInt list a = true <-> In a list.
Proof.
  induction list as [|b rest IH]; cbn.
  - split; [discriminate | tauto].
  - destruct (Nat.eqb_spec b a); [tauto|]. rewrite IH. tauto.
Qed.

(** The inner loop stops at the first entry of the name. *)
Lemma findNew_Some (oldFile : File) (newFiles : list File) :
  forall i j f,
    findNew oldFile newFiles i = Some (j, f) ->
    exists before after,
      newFiles = (before ++ f :: after)%list /\
      j = (i + List.length before)%nat /\
      sameName oldFile f = true /\
      forallb (fun e => negb (sameName oldFile e)) before = true.
Proof.
  induction newFiles as [|n rest IH]; cbn; intros i j f H; [discriminate|].
  destruct (Name oldFile =? Name n) eqn:E.
  - injection H as <- <-. exists [], rest. cbn. unfold sameName.
    rewrite E. repeat split; lia.
  - apply IH in H as (before & after & -> & -> & Hf & Hb).
    exists (n :: before), after. cbn. unfold sameName at 2. rewrite E.
    repeat split; [lia | assumption | assumption].
Qed.

Lemma findNew_None (oldFile : File) (newFiles : list File) :
  forall i,
    findNew oldFile newFiles i = None ->
    forallb (fun e => negb (sameName oldFile e)) newFiles = true.
Proof.
  induction newFiles as [|n rest IH]; cbn; intros i H; [reflexivity|].
  unfold sameName at 1. destruct (Name oldFile =? Name n); [discriminate|].
  cbn. eauto.
Qed.

Lemma findNew_here (oldFile f : File) (before after : list File) (i : nat) :
  sameName oldFile f = true ->
  forallb (fun e => negb (sameName oldFile e)) before = true ->
  findNew oldFile (before ++ f :: after) i =
  Some ((i + List.length before)%nat, f).
Proof.
  intros Hf. revert i.
  induction before as [|e before IH]; cbn; intros i Hb.
  - unfold sameName in Hf. rewrite Hf. do 2 f_equal. lia.
  - apply andb_true_iff in Hb as [He Hb]. unfold sameName in He.
    destruct (Name oldFile =? Name e); [discriminate|].
    rewrite IH by assumption. do 2 f_equal. lia.
Qed.

(** The inner loop finds what [find] finds. *)
Lemma findNew_matching (oldFile : File) (newFiles : list File) (i : nat) :
  option_map snd (findNew oldFile newFiles i) = matching newFiles oldFile.
Proof.
  unfold matching. revert i.
  induction newFiles as [|n rest IH]; cbn; intros i; [reflexivity|].
  unfold sameName at 1. destruct (Name oldFile =? Name n); cbn; auto.
Qed.

Lemma hits_replaced (newFiles oldFiles : list File) :
  map snd (hits newFiles oldFiles) = replaced newFiles oldFiles.
Proof.
  unfold hits, replaced.
  induction oldFiles as [|o rest IH]; cbn; [reflexivity|].
  rewrite map_app, IH. f_equal.
  rewrite <- (findNew_matching o newFiles 0).
  now destruct (findNew o newFiles 0).
Qed.

(** The outer loop. *)
Lemma retain_fold (newFiles oldFiles : list File) :
  forall acc,
    fold_left (retain newFiles) oldFiles acc =
    ((fst acc ++ map snd (hits newFiles oldFiles))%list,
     (snd acc ++ map fst (hits newFiles oldFiles))%list).
Proof.
  unfold hits.
  induction oldFiles as [|o rest IH]; cbn; intros [result idx].
  - now rewrite !app_nil_r.
  - rewrite IH. unfold retain.
    destruct (findNew o newFiles 0) as [[j f]|]; cbn.
    + now rewrite <- !app_assoc.
    + reflexivity.
Qed.

(** The second loop keeps the entries whose position was not appended. *)
Lemma appendNew_filter (appendedIndexes : list nat) (newFiles : list File) :
  forall i result,
    appendNew appendedIndexes newFiles i result =
    (result ++
     map snd (filter (fun p => negb (includesInt appendedIndexes (fst p)))
                (indexedFrom i newFiles)))%list.
Proof.
  induction newFiles as [|n rest IH]; cbn; intros i result.
  - now rewrite app_nil_r.
  - rewrite IH. destruct (includesInt appendedIndexes i); cbn.
    + reflexivity.
    + now rewrite <- app_assoc.
Qed.

Lemma In_hits (newFiles oldFiles : list File) (p : nat * File) :
  In p (hits newFiles oldFiles) <->
  exists oldFile, In oldFile oldFiles /\ findNew oldFile newFiles 0 = Some p.
Proof.
  unfold hits. rewrite in_flat_map. split; intros (o & Ho & H); exists o;
    (split; [assumption|]); destruct (findNew o newFiles 0); cbn in *.
  - destruct H as [->|[]]. reflexivity.
  - destruct H.
  - injection H as ->. now left.
  - discriminate.
Qed.

Lemma app_pivot {A : Type} (l1 l2 r1 r2 : list A) (x y : A) :
  (l1 ++ x :: r1 = l2 ++ y :: r2)%list ->
  List.length l1 = List.length l2 ->
  l1 = l2 /\ x = y /\ r1 = r2.
Proof.
  revert l2. induction l1 as [|a l1 IH]; intros [|b l2]; cbn; intros H L;
    try discriminate.
  - injection H as -> ->. auto.
  - injection H as -> H. injection L as L.
    destruct (IH _ H L) as (-> & -> & ->). auto.
Qed.

Lemma sameName_trans_false (o n e : File) :
  sameName o n = true -> sameName o e = sameName e n.
Proof.
  unfold sameName. intros H. apply String.eqb_eq in H. rewrite H.
  apply String.eqb_sym.
Qed.

Lemma none_same (o n : File) (seen : list File) :
  sameName o n = true ->
  forallb (fun e => negb (sameName o e)) seen =
  negb (existsb (fun e => sameName e n) seen).
Proof.
  intros H. induction seen as [|e seen IH]; cbn; [reflexivity|].
  rewrite IH, (sameName_trans_false o n e H). now rewrite negb_orb.
Qed.

(** A position of [newFiles] was appended by the outer loop exactly when an
    old entry has the name there and no earlier new entry has. *)
Lemma consumed_iff (oldFiles seen rest : list File) (n : File) :
  includesInt (map fst (hits (seen ++ n :: rest) oldFiles)) (List.length seen) =
  existsb (fun o => sameName o n) oldFiles &&
  negb (existsb (fun e => sameName e n) seen).
Proof.
  apply eq_true_iff_eq.
  rewrite includesInt_In, in_map_iff, andb_true_iff, existsb_exists.
  split.
  - intros ([j f] & Hj & Hin). cbn in Hj. subst j.
    apply In_hits in Hin as (o & Ho & Hfind).
    apply findNew_Some in Hfind as (before & after & E & L & Hf & Hb).
    cbn in L.
    destruct (app_pivot _ _ _ _ _ _ E L) as (-> & -> & ->).
    split; [now exists o|]. now rewrite <- (none_same o f before Hf).
  - intros ((o & Ho & Hf) & Hseen).
    exists (List.length seen, n). split; [reflexivity|].
    apply In_hits. exists o. split; [assumption|].
    rewrite <- (none_same o n seen Hf) in Hseen.
    now rewrite (findNew_here o n seen rest 0 Hf Hseen).
Qed.

Lemma filter_remaining (oldFiles newFiles : list File) :
  forall seen rest,
    newFiles = (seen ++ rest)%list ->
    map snd
      (filter (fun p => negb (includesInt (map fst (hits newFiles oldFiles))
                                (fst p)))
         (indexedFrom (List.length seen) rest)) =
    remaining oldFiles seen rest.
Proof.
  intros seen rest. revert seen.
  induction rest as [|n rest IH]; intros seen E; cbn [indexedFrom filter map remaining];
    [reflexivity|].
  cbn [fst]. rewrite E at 1. rewrite consumed_iff.
  specialize (IH (seen ++ [n])%list).
  rewrite length_app, Nat.add_1_r in IH. cbn [List.length] in IH.
  rewrite <- IH by (now rewrite <- app_assoc).
  now destruct (existsb _ oldFiles && negb _).
Qed.

(** The loops compute the merge of the design document. *)
Lemma MergeStatusFiles_loops (oldFiles newFiles : list File) :
  oldFiles <> [] ->
  MergeStatusFiles oldFiles newFiles =
  (replaced newFiles oldFiles ++ remaining oldFiles [] newFiles)%list.
Proof.
  intros Hne. unfold MergeStatusFiles, len.
  destruct oldFiles as [|o rest]; [contradiction|].
  cbn [List.length]. rewrite Nat2Z.inj_succ.
  destruct (Z.eqb_spec (Z.succ (Z.of_nat (List.length rest))) 0); [lia|].
  rewrite retain_fold. cbn [fst snd app].
  rewrite appendNew_filter, hits_replaced.
  pose proof (filter_remaining (o :: rest) newFiles [] newFiles eq_refl) as F.
  cbn [List.length] in F. now rewrite F.
Qed.

Lemma In_indexedFrom {A : Type} (l : list A) :
  forall i j a,
    In (j, a) (indexedFrom i l) <->
    (i <= j)%nat /\ nth_error l (j - i) = Some a.
Proof.
  induction l as [|b l IH]; cbn; intros i j a.
  - split; [tauto|]. intros [_ H]. now destruct (j - i)%nat.
  - rewrite IH. split.
    + intros [H|[H1 H2]].
      * injection H as <- <-. rewrite Nat.sub_diag. auto.
      * split; [lia|]. replace (j - i)%nat with (S (j - S i)) by lia.
        exact H2.
    + intros [H1 H2]. destruct (Nat.eq_dec i j) as [<-|Hne].
      * rewrite Nat.sub_diag in H2. injection H2 as <-. now left.
      * right. split; [lia|].
        replace (j - i)%nat with (S (j - S i)) in H2 by lia. exact H2.
Qed.

Lemma map_fst_indexedFrom {A : Type} (l : list A) (i : nat) :
  map fst (indexedFrom i l) = seq i (List.length l).
Proof. revert i. induction l; cbn; intros; [|rewrite IHl]; reflexivity. Qed.

Lemma map_snd_indexedFrom {A : Type} (l : list A) (i : nat) :
  map snd (indexedFrom i l) = l.
Proof. revert i. induction l; cbn; intros; [|rewrite IHl]; reflexivity. Qed.

Lemma NoDup_indexedFrom {A : Type} (l : list A) (i : nat) :
  NoDup (indexedFrom i l).
Proof.
  apply (NoDup_map_inv fst). rewrite map_fst_indexedFrom. apply seq_NoDup.
Qed.

Lemma hit_indexed (oldFile : File) (newFiles : list File) (p : nat * File) :
  findNew oldFile newFiles 0 = Some p ->
  In p (indexedFrom 0 newFiles) /\ Name (snd p) = Name oldFile.
Proof.
  destruct p as [j f]. intros H.
  apply findNew_Some in H as (before & after & -> & -> & Hf & _).
  split.
  - apply In_indexedFrom. split; [lia|]. cbn [Nat.add].
    rewrite Nat.sub_0_r, nth_error_app2, Nat.sub_diag by lia. reflexivity.
  - unfold sameName in Hf. apply String.eqb_eq in Hf. now symmetry.
Qed.

(** Old entries of distinct names consume distinct new entries. *)
Lemma NoDup_hits (newFiles oldFiles : list File) :
  NoDup (map Name oldFiles) -> NoDup (hits newFiles oldFiles).
Proof.
  induction oldFiles as [|o rest IH]; cbn; intros H; [constructor|].
  apply NoDup_cons_iff in H as [Hnotin Hrest].
  change (hits newFiles (o :: rest))
    with (toList (findNew o newFiles 0) ++ hits newFiles rest)%list.
  destruct (findNew o newFiles 0) as [p|] eqn:E; cbn; [|auto].
  constructor; [|auto].
  intros Hin. apply In_hits in Hin as (o' & Ho' & E').
  apply hit_indexed in E as [_ E]. apply hit_indexed in E' as [_ E'].
  apply Hnotin. rewrite <- E, E'. now apply in_map.
Qed.

Lemma hits_permutation (newFiles oldFiles : list File) :
  NoDup (map Name oldFiles) ->
  Permutation
    (hits newFiles oldFiles ++
     filter (fun p => negb (includesInt (map fst (hits newFiles oldFiles))
                              (fst p)))
       (indexedFrom 0 newFiles))
    (indexedFrom 0 newFiles).
Proof.
  intros Hnd.
  assert (Hsub : forall p, In p (hits newFiles oldFiles) ->
                           In p (indexedFrom 0 newFiles)).
  { intros p Hp. apply In_hits in Hp as (o & _ & E).
    now apply hit_indexed in E. }
  apply NoDup_Permutation.
  - apply NoDup_app.
    + now apply NoDup_hits.
    + apply NoDup_filter, NoDup_indexedFrom.
    + intros p Hp Hq. apply filter_In in Hq as [_ Hq].
      apply negb_true_iff in Hq.
      assert (includesInt (map fst (hits newFiles oldFiles)) (fst p) = true)
        by (apply includesInt_In; now apply in_map).
      congruence.
  - apply NoDup_indexedFrom.
  - intros [j f]. rewrite in_app_iff, filter_In. split.
    + intros [H|[H _]]; auto.
    + intros H.
      destruct (includesInt (map fst (hits newFiles oldFiles)) j) eqn:Ej;
        [left | right; cbn; now rewrite Ej].
      apply includesInt_In, in_map_iff in Ej as ([j' g] & Hj & Hg).
      cbn in Hj. subst j'. pose proof (Hsub _ Hg) as Hg'.
      apply In_indexedFrom in H as [_ H]. apply In_indexedFrom in Hg' as [_ Hg'].
      rewrite H in Hg'. injection Hg' as <-. exact Hg.
Qed.

Lemma MergeStatusFiles_indexed (oldFiles newFiles : list File) :
  oldFiles <> [] ->
  MergeStatusFiles oldFiles newFiles =
  map snd
    (hits newFiles oldFiles ++
     filter (fun p => negb (includesInt (map fst (hits newFiles oldFiles))
                              (fst p)))
       (indexedFrom 0 newFiles)).
Proof.
  intros Hne. unfold MergeStatusFiles, len.
  destruct oldFiles as [|o rest]; [contradiction|].
  cbn [List.length]. rewrite Nat2Z.inj_succ.
  destruct (Z.eqb_spec (Z.succ (Z.of_nat (List.length rest))) 0); [lia|].
  rewrite retain_fold. cbn [fst snd app].
  now rewrite appendNew_filter, map_app.
Qed.

Lemma remaining_no_old (seen newFiles : list File) :
  remaining [] seen newFiles = newFiles.
Proof.
  revert seen. induction newFiles as [|n rest IH]; cbn; intros seen;
    [reflexivity | now rewrite IH].
Qed.

(** C3, as the code has it.  With no old entry the result is [newFiles]
    itself.  In general the result is the old list walked in order, each
    entry replaced by the first new entry of its name or dropped, followed by
    the new entries not consumed, in their order.  When no two old entries
    share a name, the result holds exactly the entries of [newFiles]: it is a
    permutation of it. *)
Theorem MergeStatusFiles_spec (oldFiles newFiles : list File) :
  (oldFiles = [] -> MergeStatusFiles oldFiles newFiles = newFiles) /\
  MergeStatusFiles oldFiles newFiles =
    (replaced newFiles oldFiles ++ remaining oldFiles [] newFiles)%list /\
  (NoDup (map Name oldFiles) ->
   Permutation (MergeStatusFiles oldFiles newFiles) newFiles /\
   List.length (MergeStatusFiles oldFiles newFiles) = List.length newFiles).
Proof.
  assert (Hempty : MergeStatusFiles [] newFiles = newFiles) by reflexivity.
  split; [now intros -> | split].
  - destruct oldFiles as [|o rest].
    + now rewrite Hempty, remaining_no_old.
    + now apply MergeStatusFiles_loops.
  - intros Hnd.
    assert (HP : Permutation (MergeStatusFiles oldFiles newFiles) newFiles).
    { destruct oldFiles as [|o rest]; [now rewrite Hempty|].
      rewrite MergeStatusFiles_indexed by discriminate.
      rewrite <- (map_snd_indexedFrom newFiles 0) at 3.
      apply Permutation_map, hits_permutation, Hnd. }
    split; [exact HP | now apply Permutation_length].
Qed.

(** The scenario of [TestGitCommandMergeStatusFiles]. *)
Lemma MergeStatusFiles_spec_witness :
  MergeStatusFiles [] [fileNamed "new_file.txt" "??"] =
    [fileNamed "new_file.txt" "??"] /\
  Permutation
    (MergeStatusFiles
       [fileNamed "new_file1.txt" "M "; fileNamed "new_file2.txt" "M ";
        fileNamed "new_file3.txt" "M "]
       [fileNamed "new_file4.txt" "??"; fileNamed "new_file5.txt" "??";
        fileNamed "new_file1.txt" "MM"])
    [fileNamed "new_file4.txt" "??"; fileNamed "new_file5.txt" "??";
     fileNamed "new_file1.txt" "MM"].
Proof.
  split.
  - apply (proj1 (MergeStatusFiles_spec [] _)). reflexivity.
  - apply (proj2 (proj2 (MergeStatusFiles_spec _ _))). cbn.
    repeat (constructor; [cbn; intuition discriminate|]). constructor.
Defined.

(** C3, as stated, fails: two old entries of one name both take the new
    entry of that name, which then occurs twice in the result. *)
Lemma MergeStatusFiles_duplicates :
  MergeStatusFiles [fileNamed "a.txt" "M "; fileNamed "a.txt" " M"]
    [fileNamed "a.txt" "MM"] =
  [fileNamed "a.txt" "MM"; fileNamed "a.txt" "MM"] /\
  ~ Permutation
      (MergeStatusFiles [fileNamed "a.txt" "M "; fileNamed "a.txt" " M"]
         [fileNamed "a.txt" "MM"])
      [fileNamed "a.txt" "MM"].
Proof.
  split; [reflexivity|]. intros H. apply Permutation_length in H.
  vm_compute in H. discriminate.
Qed.

(** ** RewritePlanBuilder *)

Lemma wrap_small (z : Z) : is_int z -> wrap z = z.
Proof.
  unfold is_int, wrap, int_min, int_max.
  change (2 ^ 63)%Z with 9223372036854775808%Z.
  change (2 ^ 64)%Z with 18446744073709551616%Z.
  intros H. rewrite Z.mod_small; lia.
Qed.

Lemma wrap_is_int (z : Z) : is_int (wrap z).
Proof.
  unfold is_int, wrap, int_min, int_max.
  change (2 ^ 63)%Z with 9223372036854775808%Z.
  change (2 ^ 64)%Z with 18446744073709551616%Z.
  pose proof (Z.mod_pos_bound (z + 9223372036854775808)
                18446744073709551616 eq_refl). lia.
Qed.

Lemma int_max_succ : int_add int_max 1 = int_min.
Proof. reflexivity. Qed.

Lemma int_add_small (a b : Z) : is_int (a + b) -> int_add a b = (a + b)%Z.
Proof. apply wrap_small. Qed.

Lemma baseIndexOf_inRange (actionIndex : Z) (action : string) :
  indexInRange actionIndex ->
  baseIndexOf actionIndex action =
  (actionIndex + 1 + (if isFold action then 1 else 0))%Z.
Proof.
  unfold indexInRange, baseIndexOf, int_min, int_max. intros H.
  rewrite (int_add_small actionIndex 1)
    by (unfold is_int, int_min, int_max; lia).
  destruct (isFold action); [|lia].
  apply int_add_small. unfold is_int, int_min, int_max. lia.
Qed.

Lemma append_assoc (a b c : string) : (a ++ b) ++ c = a ++ (b ++ c).
Proof. induction a; cbn; [|rewrite IHa]; reflexivity. Qed.

Lemma append_nil_r (a : string) : a ++ "" = a.
Proof. induction a; cbn; [|rewrite IHa]; reflexivity. Qed.

Lemma serialize_app (p q : RewritePlan) :
  serialize (p ++ q)%list = serialize p ++ serialize q.
Proof.
  unfold serialize. induction p as [|e p IH]; cbn; [reflexivity|].
  now rewrite IH, append_assoc.
Qed.

(** Prepending line after line writes the lines in reverse. *)
Lemma todoLoop_serialize (actionIndex : Z) (action : string)
  (commits : list Commit) :
  forall i todo,
    todoLoop actionIndex action commits i todo =
    serialize (rev (verbsFrom actionIndex action i commits)) ++ todo.
Proof.
  induction commits as [|c rest IH]; cbn [todoLoop verbsFrom rev]; intros i todo.
  - reflexivity.
  - rewrite IH, serialize_app. cbn [serialize fold_right fst snd].
    now rewrite append_nil_r, append_assoc.
Qed.

Lemma verbsFrom_commits (actionIndex : Z) (action : string)
  (commits : list Commit) (i : Z) :
  map snd (verbsFrom actionIndex action i commits) = commits.
Proof.
  revert i. induction commits as [|c rest IH]; cbn; intros i;
    [|rewrite IH]; reflexivity.
Qed.

Lemma verbsFrom_nth (actionIndex : Z) (action : string)
  (commits : list Commit) :
  forall i j c,
    nth_error commits j = Some c ->
    nth_error (verbsFrom actionIndex action i commits) j =
    Some ((if (i + Z.of_nat j =? actionIndex)%Z then action else "pick"), c).
Proof.
  induction commits as [|d rest IH]; intros i [|j] c H; cbn in H;
    try discriminate.
  - injection H as ->. cbn. now rewrite Z.add_0_r.
  - cbn [verbsFrom nth_error]. rewrite (IH _ _ _ H).
    now replace (i + 1 + Z.of_nat j)%Z with (i + Z.of_nat (S j))%Z by lia.
Qed.

Lemma int_add_1_cases (a : Z) :
  is_int a ->
  int_add a 1 = (a + 1)%Z /\ is_int (a + 1) \/
  a = int_max /\ int_add a 1 = int_min.
Proof.
  intros H. destruct (Z.eq_dec a int_max) as [->|Hne].
  - right. split; reflexivity.
  - left. assert (is_int (a + 1)) by (unfold is_int, int_min, int_max in *; lia).
    split; [now apply int_add_small | assumption].
Qed.

Lemma len_nonneg {A : Type} (s : list A) : (0 <= len s)%Z.
Proof. unfold len. lia. Qed.

Lemma slice_to_Returns {A : Type} (s prefix : list A) (hi : Z) :
  slice_to s hi = Returns prefix ->
  (0 <= hi <= len s)%Z /\ prefix = firstn (Z.to_nat hi) s.
Proof.
  unfold slice_to.
  destruct (Z.ltb_spec hi 0), (Z.ltb_spec (len s) hi); cbn; intros E;
    try discriminate.
  injection E as <-. split; [lia | reflexivity].
Qed.

Lemma slice_to_negative {A : Type} (s : list A) (hi : Z) :
  (hi < 0)%Z -> slice_to s hi = Panics SliceBoundsOutOfRange.
Proof.
  unfold slice_to. intros H. destruct (Z.ltb_spec hi 0); [reflexivity | lia].
Qed.

Lemma elem_Returns {A : Type} (s : list A) (i : Z) (a : A) :
  elem s i = Returns a <->
  (0 <= i < len s)%Z /\ nth_error s (Z.to_nat i) = Some a.
Proof.
  unfold elem, len. destruct (Z.ltb_spec i 0).
  - split; [discriminate | lia].
  - destruct (nth_error s (Z.to_nat i)) as [b|] eqn:E.
    + assert (Z.to_nat i < List.length s)%nat
        by (apply nth_error_Some; congruence).
      split; [intros [= ->]; split; [lia | reflexivity]
             | intros [_ [= ->]]; reflexivity].
    + split; [discriminate | intros [_ [=]]].
Qed.

(** What a call that returns without error has computed. *)
Lemma GenerateGenericRebaseTodo_returns (commits : list Commit)
  (actionIndex : Z) (action todo sha : string) :
  is_int actionIndex ->
  GenerateGenericRebaseTodo commits actionIndex action =
    Returns (todo, sha, None) ->
  let b := (actionIndex + 1 + (if isFold action then 1 else 0))%Z in
  baseIndexOf actionIndex action = b /\
  (0 <= b < len commits)%Z /\
  todo = todoLoop actionIndex action (firstn (Z.to_nat b) commits) 0 "" /\
  exists base, nth_error commits (Z.to_nat b) = Some base /\ sha = Sha base.
Proof.
  intros Hint. unfold GenerateGenericRebaseTodo, baseIndexOf.
  pose proof (len_nonneg commits) as Hlen.
  assert (Hmin : (int_min < 0)%Z) by reflexivity.
  assert (Hmin1 : int_add int_min 1 = (int_min + 1)%Z) by reflexivity.
  assert (Hmin2 : (int_min + 1 < 0)%Z) by reflexivity.
  destruct (int_add_1_cases actionIndex Hint) as [[E1 I1] | [_ E1]];
    rewrite E1; clear E1.
  2:{ destruct (Z.leb_spec (len commits) int_min); [lia|].
      destruct (isFold action); cbn [andb].
      - rewrite Hmin1.
        destruct (Z.leb_spec (len commits) (int_min + 1)); [lia|].
        now rewrite slice_to_negative.
      - now rewrite slice_to_negative. }
  destruct (Z.leb_spec (len commits) (actionIndex + 1)); [discriminate|].
  destruct (isFold action); cbn [andb].
  - destruct (int_add_1_cases _ I1) as [[E2 _] | [_ E2]]; rewrite E2; clear E2.
    2:{ destruct (Z.leb_spec (len commits) int_min); [lia|].
        now rewrite slice_to_negative. }
    destruct (Z.leb_spec (len commits) (actionIndex + 1 + 1)); [discriminate|].
    destruct (slice_to commits (actionIndex + 1 + 1)) as [prefix|] eqn:Es;
      [|discriminate].
    destruct (elem commits (actionIndex + 1 + 1)) as [base|] eqn:Ee;
      [|discriminate].
    cbn. intros [= <- <-].
    apply slice_to_Returns in Es as [? ->]. apply elem_Returns in Ee as [? Ee].
    repeat split; try lia; try reflexivity. now exists base.
  - rewrite Z.add_0_r.
    destruct (slice_to commits (actionIndex + 1)) as [prefix|] eqn:Es;
      [|discriminate].
    destruct (elem commits (actionIndex + 1)) as [base|] eqn:Ee;
      [|discriminate].
    cbn. intros [= <- <-].
    apply slice_to_Returns in Es as [? ->]. apply elem_Returns in Ee as [? Ee].
    repeat split; try lia; try reflexivity. now exists base.
Qed.

(** The function on an index that does not wrap around. *)
Lemma GenerateGenericRebaseTodo_inRange (commits : list Commit)
  (actionIndex : Z) (action : string) :
  indexInRange actionIndex ->
  let b := (actionIndex + 1 + (if isFold action then 1 else 0))%Z in
  GenerateGenericRebaseTodo commits actionIndex action =
  if (len commits <=? actionIndex + 1)%Z
  then Returns ("", "", Some (Localized "CannotRebaseOntoFirstCommit"))
  else if isFold action && (len commits <=? b)%Z
  then Returns ("", "", Some (Localized "CannotSquashOntoSecondCommit"))
  else
    (let* prefix := slice_to commits b in
     let* base := elem commits b in
     Returns (todoLoop actionIndex action prefix 0 "", Sha base, None))%outcome.
Proof.
  intros H. pose proof H as [Hlo Hhi]. unfold int_min, int_max in Hlo, Hhi.
  unfold GenerateGenericRebaseTodo.
  rewrite (int_add_small actionIndex 1)
    by (unfold is_int, int_min, int_max; lia).
  destruct (isFold action); cbn [andb].
  - rewrite (int_add_small (actionIndex + 1) 1)
      by (unfold is_int, int_min, int_max; lia).
    reflexivity.
  - now rewrite Z.add_0_r.
Qed.

(** C4: a call that returns without error has built the plan over
    [commits[0:baseIndex]], oldest first, every position with the verb
    [pick] but [actionIndex], which has the requested verb, and returns the
    sha of [commits[baseIndex]]. *)
Theorem GenerateGenericRebaseTodo_plan (commits : list Commit)
  (actionIndex : Z) (action todo sha : string) :
  is_int actionIndex ->
  GenerateGenericRebaseTodo commits actionIndex action =
    Returns (todo, sha, None) ->
  exists (baseIndex : nat) (base : Commit),
    Z.of_nat baseIndex = baseIndexOf actionIndex action /\
    Z.of_nat baseIndex =
      (actionIndex + 1 + (if isFold action then 1 else 0))%Z /\
    todo = serialize (planFor commits actionIndex action baseIndex) /\
    map snd (planFor commits actionIndex action baseIndex) =
      rev (firstn baseIndex commits) /\
    (forall j commit,
        (j < baseIndex)%nat ->
        nth_error commits j = Some commit ->
        nth_error (planFor commits actionIndex action baseIndex)
          (baseIndex - 1 - j) =
        Some ((if (Z.of_nat j =? actionIndex)%Z then action else "pick"),
              commit)) /\
    nth_error commits baseIndex = Some base /\
    sha = Sha base.
Proof.
  intros Hint H.
  destruct (GenerateGenericRebaseTodo_returns _ _ _ _ _ Hint H)
    as (Hb & Hrange & Htodo & base & Hbase & Hsha).
  set (b := (actionIndex + 1 + (if isFold action then 1 else 0))%Z) in *.
  exists (Z.to_nat b), base.
  assert (Hlen : (Z.to_nat b < List.length commits)%nat)
    by (unfold len in Hrange; lia).
  repeat split; try assumption; try lia.
  - rewrite Htodo, todoLoop_serialize. unfold planFor. apply append_nil_r.
  - unfold planFor. now rewrite map_rev, verbsFrom_commits.
  - intros j commit Hj Hc. unfold planFor.
    assert (Hl : List.length
                   (verbsFrom actionIndex action 0 (firstn (Z.to_nat b) commits))
                 = Z.to_nat b).
    { rewrite <- (length_map snd), verbsFrom_commits, length_firstn. lia. }
    rewrite nth_error_rev, Hl.
    destruct (Nat.ltb_spec (Z.to_nat b - 1 - j) (Z.to_nat b)); [|lia].
    replace (Z.to_nat b - S (Z.to_nat b - 1 - j))%nat with j by lia.
    rewrite (verbsFrom_nth actionIndex action _ 0 j commit).
    + reflexivity.
    + rewrite nth_error_firstn.
      now destruct (Nat.ltb_spec j (Z.to_nat b)); [|lia].
Qed.

Lemma GenerateGenericRebaseTodo_plan_witness :
  exists (baseIndex : nat) (base : Commit),
    Z.of_nat baseIndex = baseIndexOf 0 "squash" /\
    Z.of_nat baseIndex = (0 + 1 + (if isFold "squash" then 1 else 0))%Z /\
    (String.append "pick c2 second" (String "010"
       (String.append "squash c3 third" (String "010" "")))) =
      serialize (planFor threeCommits 0 "squash" baseIndex) /\
    map snd (planFor threeCommits 0 "squash" baseIndex) =
      rev (firstn baseIndex threeCommits) /\
    (forall j commit,
        (j < baseIndex)%nat ->
        nth_error threeCommits j = Some commit ->
        nth_error (planFor threeCommits 0 "squash" baseIndex)
          (baseIndex - 1 - j) =
        Some ((if (Z.of_nat j =? 0)%Z then "squash" else "pick"), commit)) /\
    nth_error threeCommits baseIndex = Some base /\
    "c1" = Sha base.
Proof.
  apply (GenerateGenericRebaseTodo_plan threeCommits 0 "squash").
  - unfold is_int, int_min, int_max. lia.
  - reflexivity.
Defined.

Lemma build_tail_no_error (commits : list Commit) (actionIndex b : Z)
  (act todo sha : string) (e : error) :
  (let* prefix := slice_to commits b in
   let* base := elem commits b in
   Returns (todoLoop actionIndex act prefix 0 "", Sha base, @None error)
  )%outcome <> Returns (todo, sha, Some e).
Proof.
  destruct (slice_to commits b); cbn; [|discriminate].
  destruct (elem commits b); cbn; [|discriminate]. congruence.
Qed.

(** C5: [build] returns the error of insufficient history exactly when
    [len(commits) <= baseIndex], with [baseIndex = actionIndex + 1], and one
    more for the verbs squash and fixup; it returns no other error; and
    [squash] at [idx] with [len(commits) = idx + 2] fails. *)
Theorem GenerateGenericRebaseTodo_InsufficientHistory (commits : list Commit)
  (actionIndex : Z) (action : string) :
  indexInRange actionIndex ->
  let baseIndex := (actionIndex + 1 + (if isFold action then 1 else 0))%Z in
  baseIndexOf actionIndex action = baseIndex /\
  (failsWith InsufficientHistory
     (GenerateGenericRebaseTodo commits actionIndex action) <->
   (len commits <= baseIndex)%Z) /\
  (failsWith (fun _ => True)
     (GenerateGenericRebaseTodo commits actionIndex action) ->
   (len commits <= baseIndex)%Z) /\
  ((len commits = actionIndex + 2)%Z ->
   failsWith InsufficientHistory
     (GenerateGenericRebaseTodo commits actionIndex "squash")).
Proof.
  intros Hr baseIndex.
  assert (Hgen : forall act,
    let b := (actionIndex + 1 + (if isFold act then 1 else 0))%Z in
    (failsWith InsufficientHistory
       (GenerateGenericRebaseTodo commits actionIndex act) <->
     (len commits <= b)%Z) /\
    (failsWith (fun _ => True)
       (GenerateGenericRebaseTodo commits actionIndex act) ->
     (len commits <= b)%Z)).
  { intros act b.
    rewrite (GenerateGenericRebaseTodo_inRange commits actionIndex act Hr).
    fold b. unfold failsWith, InsufficientHistory.
    destruct (Z.leb_spec (len commits) (actionIndex + 1)) as [H1|H1].
    { assert (len commits <= b)%Z by (unfold b; destruct (isFold act); lia).
      split; [split; [auto|] | auto].
      intros _. do 3 eexists. split; [reflexivity | now left]. }
    destruct (isFold act) eqn:Ef; cbn [andb].
    - destruct (Z.leb_spec (len commits) b) as [H2|H2].
      { split; [split; [auto|] | auto].
        intros _. do 3 eexists. split; [reflexivity | now right]. }
      split; [split|]; try lia; intros (todo & sha & e & H & _);
        now apply build_tail_no_error in H.
    - split; [split|]; try (unfold b; lia); intros (todo & sha & e & H & _);
        now apply build_tail_no_error in H. }
  split; [now apply baseIndexOf_inRange|].
  split; [apply Hgen | split; [apply Hgen|]].
  intros Hlen. apply (Hgen "squash"). cbn. lia.
Qed.

Lemma GenerateGenericRebaseTodo_InsufficientHistory_witness :
  failsWith InsufficientHistory
    (GenerateGenericRebaseTodo threeCommits 1 "squash").
Proof.
  assert (Hr : indexInRange 1)
    by (unfold indexInRange, int_min, int_max; lia).
  apply (proj2 (proj2 (proj2
    (GenerateGenericRebaseTodo_InsufficientHistory threeCommits 1 "squash"
       Hr)))).
  reflexivity.
Defined.

(** ** RewriteDriver *)

Section DriverFacts.

Variable K : Type.
Variable os : OSCommand.
Variable respond : list (Event K) -> Event K -> option string.
Variable run : K -> M K (option error).

(** [GenericMerge], case by case. *)
Lemma GenericMerge_unfold (commandType command : string)
  (past : list (Event K)) (c : GitCommand K) :
  GenericMerge os respond run commandType command past c =
  let ev := mergeEvent os commandType command in
  match respond past ev with
  | Some stderr => (Returns (Some (External stderr)), c, [ev])
  | None =>
      match (commandType =? "rebase") && (command =? "continue"),
            onSuccessfulContinue c with
      | true, Some f =>
          let '(r, c', added) :=
            run f (past ++ [ev; Invoked f])%list (withContinue None c) in
          (r, c', ev :: Invoked f :: added)
      | _, _ =>
          (Returns None,
           (if command =? "abort" then withContinue None c else c),
           [ev])
      end
  end.
Proof.
  unfold GenericMerge, RunSkipEditorCommand, mergeEvent, bind, call, ret,
    getContinue, setContinue, invoke.
  cbn zeta.
  destruct (respond past _) as [stderr|]; cbn [option_map app]; [reflexivity|].
  destruct ((commandType =? "rebase") && (command =? "continue")),
    (onSuccessfulContinue c) as [f|]; cbn [app];
    try (destruct (command =? "abort"); reflexivity).
  rewrite !app_nil_r, <- app_assoc. cbn [app].
  now destruct (run f _ _) as [[r c'] added].
Qed.

(** With nothing pending, no closure is called and nothing becomes pending,
    whatever the commands and however they end. *)
Lemma GenericMerges_nothing_pending (commands : list (string * string)) :
  forall past c,
    onSuccessfulContinue c = None ->
    exists c' added,
      GenericMerges os respond run commands past c = (Returns tt, c', added) /\
      onSuccessfulContinue c' = None /\
      noneInvoked added.
Proof.
  induction commands as [|[commandType command] rest IH]; intros past c Hc.
  - exists c, []. repeat split; assumption.
  - cbn [GenericMerges]. unfold bind.
    rewrite GenericMerge_unfold. cbn zeta. rewrite Hc.
    set (ev := mergeEvent os commandType command).
    assert (Hstep : exists r c1,
      match respond past ev with
      | Some stderr => (Returns (Some (External stderr)), c, [ev])
      | None =>
          match (commandType =? "rebase") && (command =? "continue") with
          | true | _ =>
              (Returns None,
               (if command =? "abort" then withContinue None c else c), [ev])
          end
      end = (Returns r, c1, [ev]) /\ onSuccessfulContinue c1 = None).
    { destruct (respond past ev); [now eauto|].
      destruct (_ && _), (command =? "abort"); eauto. }
    destruct Hstep as (r & c1 & -> & Hc1).
    destruct (IH (past ++ [ev])%list c1 Hc1) as (c' & added & -> & Hc' & Hn).
    exists c', (ev :: added). split; [reflexivity | split; [exact Hc'|]].
    exact Hn.
Qed.

(** C1, as the code has it: a successful [rebase --continue] with a closure
    pending clears the field and then calls the closure, once; an abort whose
    command succeeds clears the field and calls nothing, and after it no
    closure is called, whatever continue, abort or skip follows; an abort
    whose command fails returns before the field is cleared, so the closure
    stays pending and the next [rebase --continue] that succeeds calls it. *)
Theorem GenericMerge_continuation (past : list (Event K)) (c : GitCommand K) :
  (forall f,
      respond past (mergeEvent os "rebase" "continue") = None ->
      onSuccessfulContinue c = Some f ->
      GenericMerge os respond run "rebase" "continue" past c =
      let '(r, c', added) :=
        run f (past ++ [mergeEvent os "rebase" "continue"; Invoked f])%list
          (withContinue None c) in
      (r, c', mergeEvent os "rebase" "continue" :: Invoked f :: added)) /\
  (forall commandType,
      respond past (mergeEvent os commandType "abort") = None ->
      GenericMerge os respond run commandType "abort" past c =
        (Returns None, withContinue None c,
         [mergeEvent os commandType "abort"]) /\
      forall commands,
      exists c' added,
        GenericMerges os respond run ((commandType, "abort") :: commands)
          past c =
          (Returns tt, c', mergeEvent os commandType "abort" :: added) /\
        onSuccessfulContinue c' = None /\
        noneInvoked added) /\
  (forall commandType stderr f,
      respond past (mergeEvent os commandType "abort") = Some stderr ->
      onSuccessfulContinue c = Some f ->
      GenericMerge os respond run commandType "abort" past c =
        (Returns (Some (External stderr)), c,
         [mergeEvent os commandType "abort"]) /\
      (respond (past ++ [mergeEvent os commandType "abort"])%list
         (mergeEvent os "rebase" "continue") = None ->
       exists r c' added,
         GenericMerges os respond run
           [(commandType, "abort"); ("rebase", "continue")] past c =
           (r, c',
            mergeEvent os commandType "abort"
              :: mergeEvent os "rebase" "continue" :: Invoked f :: added))).
Proof.
  split; [|split].
  - intros f Hok Hf. rewrite GenericMerge_unfold. cbn zeta.
    now rewrite Hok, Hf.
  - intros commandType Hok.
    assert (Habort :
      GenericMerge os respond run commandType "abort" past c =
      (Returns None, withContinue None c, [mergeEvent os commandType "abort"])).
    { rewrite GenericMerge_unfold. cbn zeta. rewrite Hok.
      replace ((commandType =? "rebase") && ("abort" =? "continue"))
        with false by (now rewrite andb_false_r).
      reflexivity. }
    split; [exact Habort|].
    intros commands. cbn [GenericMerges]. unfold bind. rewrite Habort.
    destruct (GenericMerges_nothing_pending commands
                (past ++ [mergeEvent os commandType "abort"])%list
                (withContinue None c) eq_refl)
      as (c' & added & -> & Hc' & Hn).
    exists c', added. split; [reflexivity | split; assumption].
  - intros commandType stderr f Herr Hf.
    assert (Habort :
      GenericMerge os respond run commandType "abort" past c =
      (Returns (Some (External stderr)), c,
       [mergeEvent os commandType "abort"])).
    { rewrite GenericMerge_unfold. cbn zeta. now rewrite Herr. }
    split; [exact Habort|].
    intros Hok. cbn [GenericMerges]. unfold bind at 1. rewrite Habort.
    unfold bind at 1. rewrite GenericMerge_unfold. cbn zeta.
    rewrite Hok, Hf. cbn [andb String.eqb Ascii.eqb].
    destruct (run f _ _) as [[r c'] added].
    destruct r as [r|p]; unfold ret; cbn [app]; do 3 eexists;
      rewrite ?app_nil_r; reflexivity.
Qed.

(** C10: when the external command fails, [GenericMerge] returns its error
    and leaves the [GitCommand] as it was, the pending closure neither called
    nor cleared, for abort as for the others; and a run that clears a
    pending closure without calling one is a successful abort. *)
Theorem GenericMerge_external_error (commandType command : string)
  (past : list (Event K)) (c : GitCommand K) :
  (forall stderr,
      respond past (mergeEvent os commandType command) = Some stderr ->
      GenericMerge os respond run commandType command past c =
        (Returns (Some (External stderr)), c,
         [mergeEvent os commandType command])) /\
  (forall k r c' added,
      onSuccessfulContinue c = Some k ->
      GenericMerge os respond run commandType command past c =
        (r, c', added) ->
      onSuccessfulContinue c' = None ->
      noneInvoked added ->
      command = "abort" /\
      respond past (mergeEvent os commandType command) = None).
Proof.
  split.
  - intros stderr Herr. rewrite GenericMerge_unfold. cbn zeta.
    now rewrite Herr.
  - intros k r c' added Hk. rewrite GenericMerge_unfold. cbn zeta.
    rewrite Hk.
    destruct (respond past _) as [stderr|].
    { intros [= <- <- <-] Hc'. congruence. }
    destruct ((commandType =? "rebase") && (command =? "continue")).
    + destruct (run k _ _) as [[r1 c1] added1].
      intros [= <- <- <-] _ Hn. discriminate.
    + destruct (String.eqb_spec command "abort") as [->|Hne].
      * auto.
      * intros [= <- <- <-] Hc'. congruence.
Qed.

End DriverFacts.

Lemma GenericMerge_continuation_witness :
  GenericMerge dummyOS allSucceed runNothing "rebase" "continue" []
    (dummyGit "" (Some 7)) =
  (Returns None, withContinue None (dummyGit "" (Some 7)),
   [mergeEvent dummyOS "rebase" "continue"; Invoked 7]) /\
  GenericMerge dummyOS allSucceed runNothing "rebase" "abort" []
    (dummyGit "" (Some 7)) =
  (Returns None, withContinue None (dummyGit "" (Some 7)),
   [mergeEvent dummyOS "rebase" "abort"]) /\
  GenericMerge dummyOS abortFails runNothing "rebase" "abort" []
    (dummyGit "" (Some 7)) =
  (Returns (Some (External "fatal: No rebase in progress?")),
   dummyGit "" (Some 7), [mergeEvent dummyOS "rebase" "abort"]).
Proof.
  split; [|split].
  - apply (proj1 (GenericMerge_continuation nat dummyOS allSucceed runNothing
                    [] (dummyGit "" (Some 7))) 7); reflexivity.
  - apply (proj1 (proj2 (GenericMerge_continuation nat dummyOS allSucceed
                           runNothing [] (dummyGit "" (Some 7))))
             "rebase").
    reflexivity.
  - apply (proj2 (proj2 (GenericMerge_continuation nat dummyOS abortFails
                           runNothing [] (dummyGit "" (Some 7))))
             "rebase" "fatal: No rebase in progress?" 7); reflexivity.
Defined.

(** C1, as stated, fails: an abort whose command fails does not clear the
    pending closure, and the rebase continued after it calls the closure. *)
Lemma GenericMerge_failed_abort_keeps :
  onSuccessfulContinue
    (snd (fst (GenericMerge dummyOS abortFails runNothing "rebase" "abort" []
                 (dummyGit "" (Some 7))))) = Some 7 /\
  GenericMerges dummyOS abortFails runNothing
    [("rebase", "abort"); ("rebase", "continue")] [] (dummyGit "" (Some 7)) =
  (Returns tt, withContinue None (dummyGit "" (Some 7)),
   [mergeEvent dummyOS "rebase" "abort";
    mergeEvent dummyOS "rebase" "continue"; Invoked 7]) /\
  ~ noneInvoked
      (snd (GenericMerges dummyOS abortFails runNothing
              [("rebase", "abort"); ("rebase", "continue")] []
              (dummyGit "" (Some 7)))).
Proof.
  split; [reflexivity | split; [reflexivity|]].
  unfold noneInvoked. vm_compute. discriminate.
Qed.

Lemma GenericMerge_external_error_witness :
  GenericMerge dummyOS allFail runNothing "rebase" "abort" []
    (dummyGit "" (Some 7)) =
  (Returns (Some (External "exit status 1")), dummyGit "" (Some 7),
   [mergeEvent dummyOS "rebase" "abort"]) /\
  ("abort" = "abort" /\
   allSucceed [] (mergeEvent dummyOS "merge" "abort") = None).
Proof.
  split.
  - apply (proj1 (GenericMerge_external_error nat dummyOS allFail runNothing
                    "rebase" "abort" [] (dummyGit "" (Some 7)))).
    reflexivity.
  - apply (proj2 (GenericMerge_external_error nat dummyOS allSucceed
                    runNothing "merge" "abort" [] (dummyGit "" (Some 7)))
             7 (Returns None) (withContinue None (dummyGit "" (Some 7)))
             [mergeEvent dummyOS "merge" "abort"]); reflexivity.
Defined.

(** ** [MoveCommitDown] *)

Lemma elem_in_range {A : Type} (s : list A) (i : Z) :
  (0 <= i < len s)%Z ->
  exists a, elem s i = Returns a /\ nth_error s (Z.to_nat i) = Some a.
Proof.
  intros H. destruct (nth_error s (Z.to_nat i)) as [a|] eqn:E.
  - exists a. split; [|reflexivity]. now apply elem_Returns.
  - apply nth_error_None in E. unfold len in H. lia.
Qed.

Lemma slice_to_in_range {A : Type} (s : list A) (hi : Z) :
  (0 <= hi <= len s)%Z -> slice_to s hi = Returns (firstn (Z.to_nat hi) s).
Proof.
  intros H. unfold slice_to.
  destruct (Z.ltb_spec hi 0), (Z.ltb_spec (len s) hi); cbn; try lia.
  reflexivity.
Qed.

Lemma pick_fold (commits : list Commit) :
  forall todo,
    fold_left (fun todo commit => todoLine "pick" commit ++ todo) commits todo =
    serialize (picks (rev commits)) ++ todo.
Proof.
  induction commits as [|c rest IH]; cbn [fold_left rev]; intros todo.
  - reflexivity.
  - rewrite IH. unfold picks. rewrite map_app, serialize_app.
    cbn [map serialize fold_right fst snd].
    now rewrite append_nil_r, append_assoc.
Qed.

(** The slice [append] builds, and [commits] as it reads afterwards. *)
Lemma swapOrder_in_range (commits : list Commit) (index : Z) :
  (0 <= index)%Z -> (index + 2 < len commits)%Z -> indexInRange index ->
  exists selected below base,
    nth_error commits (Z.to_nat index) = Some selected /\
    nth_error commits (Z.to_nat index + 1) = Some below /\
    nth_error commits (Z.to_nat index + 2) = Some base /\
    exists after,
      swapOrder commits index =
        Returns ((firstn (Z.to_nat index) commits ++ [below; selected])%list,
                 after) /\
      elem after (int_add index 2) = Returns base.
Proof.
  intros H0 Hlen [Hlo Hhi]. unfold int_min, int_max in Hlo, Hhi.
  destruct (elem_in_range commits index) as (selected & Es & Ns); [lia|].
  destruct (elem_in_range commits (index + 1)) as (below & Eb & Nb); [lia|].
  destruct (elem_in_range commits (index + 2)) as (base & Ea & Na); [lia|].
  exists selected, below, base.
  replace (Z.to_nat (index + 1)) with (Z.to_nat index + 1)%nat in Nb by lia.
  replace (Z.to_nat (index + 2)) with (Z.to_nat index + 2)%nat in Na by lia.
  repeat split; try assumption.
  unfold swapOrder.
  rewrite slice_to_in_range by lia.
  rewrite (int_add_small index 1) by (unfold is_int, int_min, int_max; lia).
  rewrite (int_add_small index 2) by (unfold is_int, int_min, int_max; lia).
  rewrite Eb, Es. cbn [obind].
  eexists. split; [reflexivity|].
  apply elem_Returns.
  assert (Hl : List.length
                 (firstn (Z.to_nat index) commits ++ [below; selected])%list
               = (Z.to_nat index + 2)%nat).
  { rewrite length_app, length_firstn. unfold len in Hlen. cbn. lia. }
  split.
  - unfold len in *. rewrite length_app, Hl, length_skipn. lia.
  - rewrite nth_error_app2 by lia. rewrite Hl, nth_error_skipn.
    replace (Z.to_nat index + 2 + (Z.to_nat (index + 2) - (Z.to_nat index + 2)))%nat
      with (Z.to_nat index + 2)%nat by lia.
    exact Na.
Qed.

Section MoveCommitDownFacts.

Variable K : Type.
Variable os : OSCommand.
Variable respond : list (Event K) -> Event K -> option string.

Lemma MoveCommitDown_no_room (commits : list Commit) (index : Z)
  (past : list (Event K)) (c : GitCommand K) :
  indexInRange index ->
  (len commits <= index + 2)%Z ->
  MoveCommitDown os respond commits index past c =
  (Returns (Some (Localized "NoRoom")), c, []).
Proof.
  intros [Hlo Hhi] Hlen. unfold int_min, int_max in Hlo, Hhi.
  unfold MoveCommitDown.
  rewrite (int_add_small index 2) by (unfold is_int, int_min, int_max; lia).
  now destruct (Z.leb_spec (len commits) (index + 2)); [|lia].
Qed.

Lemma MoveCommitDown_negative (commits : list Commit) (index : Z)
  (past : list (Event K)) (c : GitCommand K) :
  indexInRange index ->
  (index + 2 < len commits)%Z ->
  (index < 0)%Z ->
  MoveCommitDown os respond commits index past c =
  (Panics SliceBoundsOutOfRange, c, []).
Proof.
  intros [Hlo Hhi] Hlen Hneg. unfold int_min, int_max in Hlo, Hhi.
  unfold MoveCommitDown.
  rewrite (int_add_small index 2) by (unfold is_int, int_min, int_max; lia).
  destruct (Z.leb_spec (len commits) (index + 2)); [lia|].
  unfold bind, lift, swapOrder. now rewrite slice_to_negative.
Qed.

Lemma MoveCommitDown_runs (commits : list Commit) (index : Z)
  (past : list (Event K)) (c : GitCommand K) :
  indexInRange index ->
  (index + 2 < len commits)%Z ->
  (0 <= index)%Z ->
  exists selected below base,
    nth_error commits (Z.to_nat index) = Some selected /\
    nth_error commits (Z.to_nat index + 1) = Some below /\
    nth_error commits (Z.to_nat index + 2) = Some base /\
    let ev :=
      rebaseEvent os (Sha base)
        (serialize
           (picks (selected :: below :: rev (firstn (Z.to_nat index) commits))))
    in
    MoveCommitDown os respond commits index past c =
    (Returns (option_map External (respond past ev)), c, [ev]).
Proof.
  intros Hr Hlen H0.
  destruct (swapOrder_in_range commits index H0 Hlen Hr)
    as (selected & below & base & Ns & Nb & Na & after & Eswap & Ebase).
  exists selected, below, base. repeat split; try assumption.
  destruct Hr as [Hlo Hhi]. unfold int_min, int_max in Hlo, Hhi.
  unfold MoveCommitDown.
  destruct (Z.leb_spec (len commits) (int_add index 2)) as [Hle|_].
  { rewrite (int_add_small index 2) in Hle
      by (unfold is_int, int_min, int_max; lia). lia. }
  unfold bind, lift. rewrite Eswap. cbn [fst snd]. rewrite Ebase.
  rewrite pick_fold, append_nil_r, rev_app_distr. cbn [rev app].
  unfold call, rebaseEvent. cbn [snd PrepareInteractiveRebaseCommand].
  rewrite !app_nil_r. reflexivity.
Qed.

End MoveCommitDownFacts.

(** C6: moving the commit at [index] down returns the error of no room
    exactly when [len(commits) <= index + 2], before anything is run; when
    it returns without error it has started one rebase, onto
    [commits[index+2]], with the plan, oldest first, that picks
    [commits[index]] before [commits[index+1]] and then the commits above
    them in their order. *)
Theorem MoveCommitDown_spec (K : Type) (os : OSCommand)
  (respond : list (Event K) -> Event K -> option string)
  (commits : list Commit) (index : Z) (past : list (Event K))
  (c : GitCommand K) :
  indexInRange index ->
  (returnsError InsufficientRoom
     (MoveCommitDown os respond commits index past c) <->
   (len commits <= index + 2)%Z) /\
  ((len commits <= index + 2)%Z ->
   MoveCommitDown os respond commits index past c =
   (Returns (Some (Localized "NoRoom")), c, [])) /\
  (forall c' added,
      MoveCommitDown os respond commits index past c =
        (Returns None, c', added) ->
      exists selected below base,
        (0 <= index)%Z /\
        nth_error commits (Z.to_nat index) = Some selected /\
        nth_error commits (Z.to_nat index + 1) = Some below /\
        nth_error commits (Z.to_nat index + 2) = Some base /\
        c' = c /\
        added =
          [rebaseEvent os (Sha base)
             (serialize
                (picks (selected :: below ::
                        rev (firstn (Z.to_nat index) commits))))]).
Proof.
  intros Hr.
  destruct (Z.le_gt_cases (len commits) (index + 2)) as [Hle|Hgt].
  { pose proof (MoveCommitDown_no_room K os respond commits index past c Hr Hle)
      as E.
    split; [|split].
    - split; [auto|]. intros _. rewrite E. exists (Localized "NoRoom").
      split; reflexivity.
    - auto.
    - rewrite E. discriminate. }
  destruct (Z.lt_ge_cases index 0) as [Hneg|Hpos].
  { pose proof (MoveCommitDown_negative K os respond commits index past c
                  Hr Hgt Hneg) as E.
    split; [|split].
    - split; [|lia]. rewrite E. intros (e & He & _). discriminate.
    - lia.
    - rewrite E. discriminate. }
  destruct (MoveCommitDown_runs K os respond commits index past c Hr Hgt Hpos)
    as (selected & below & base & Ns & Nb & Na & E).
  cbn zeta in E. split; [|split].
  - split; [|lia]. rewrite E. intros (e & He & Hroom). cbn in He.
    red in Hroom. subst e.
    destruct (respond past _); discriminate.
  - lia.
  - rewrite E. intros c' added [= _ <- <-].
    exists selected, below, base. repeat split; assumption.
Qed.

Lemma MoveCommitDown_spec_witness :
  returnsError InsufficientRoom
    (MoveCommitDown dummyOS allSucceed fourCommits 2 [] (dummyGit "" None)) /\
  exists selected below base,
    (0 <= 1)%Z /\
    nth_error fourCommits (Z.to_nat 1) = Some selected /\
    nth_error fourCommits (Z.to_nat 1 + 1) = Some below /\
    nth_error fourCommits (Z.to_nat 1 + 2) = Some base /\
    dummyGit "" None = dummyGit "" None /\
    [rebaseEvent (K := nat) dummyOS "c1"
       (String.append "pick c3 third" (String "010"
          (String.append "pick c2 second" (String "010"
             (String.append "pick c4 fourth" (String "010" ""))))))] =
      [rebaseEvent dummyOS (Sha base)
         (serialize
            (picks (selected :: below ::
                    rev (firstn (Z.to_nat 1) fourCommits))))].
Proof.
  assert (Hr : forall i, (0 <= i <= 2)%Z -> indexInRange i)
    by (unfold indexInRange, int_min, int_max; lia).
  split.
  - apply (proj1 (MoveCommitDown_spec nat dummyOS allSucceed fourCommits 2 []
                    (dummyGit "" None) (Hr 2%Z ltac:(lia)))).
    vm_compute. discriminate.
  - apply (proj2 (proj2 (MoveCommitDown_spec nat dummyOS allSucceed fourCommits
                           1 [] (dummyGit "" None) (Hr 1%Z ltac:(lia))))).
    reflexivity.
Defined.

(** ** FileOpOrchestrator *)

(** Every error [build] returns is one of insufficient history. *)
Lemma GenerateGenericRebaseTodo_error (commits : list Commit) (actionIndex : Z)
  (action todo sha : string) (e : error) :
  GenerateGenericRebaseTodo commits actionIndex action =
    Returns (todo, sha, Some e) ->
  InsufficientHistory e.
Proof.
  unfold GenerateGenericRebaseTodo, InsufficientHistory.
  destruct (len commits <=? int_add actionIndex 1)%Z.
  { intros [= _ _ <-]. now left. }
  destruct (isFold action && _).
  { intros [= _ _ <-]. now right. }
  intros H. now apply build_tail_no_error in H.
Qed.

Section OrchestratorFacts.

Variable K : Type.
Variable os : OSCommand.
Variable respond : list (Event K) -> Event K -> option string.
Variable run : K -> M K (option error).

(** [BeginInteractiveRebaseForCommit], case by case. *)
Lemma BeginInteractiveRebaseForCommit_unfold (commits : list Commit)
  (commitIndex : Z) (past : list (Event K)) (c : GitCommand K) :
  BeginInteractiveRebaseForCommit os respond commits commitIndex past c =
  if (int_sub (len commits) 1 <? commitIndex)%Z
  then (Returns (Some (Plain "index outside of range of commits")), c, [])
  else if usingGpg c
  then (Returns (Some (Localized "DisabledForGPG")), c, [])
  else
    match GenerateGenericRebaseTodo commits commitIndex "edit" with
    | Panics p => (Panics p, c, [])
    | Returns (_, _, Some e) => (Returns (Some e), c, [])
    | Returns (todo, sha, None) =>
        (Returns (option_map External (respond past (rebaseEvent os sha todo))),
         c, [rebaseEvent os sha todo])
    end.
Proof.
  unfold BeginInteractiveRebaseForCommit.
  destruct (int_sub (len commits) 1 <? commitIndex)%Z; [reflexivity|].
  unfold bind, getUsingGpg, lift, ret.
  destruct (usingGpg c); [reflexivity|].
  destruct (GenerateGenericRebaseTodo commits commitIndex "edit")
    as [[[todo sha] [e|]]|p]; try reflexivity.
  unfold call, rebaseEvent. cbn [snd PrepareInteractiveRebaseCommand app].
  now rewrite !app_nil_r.
Qed.


End OrchestratorFacts.



Section DiscardFacts.

Variable K : Type.
Variable os : OSCommand.
Variable respond : list (Event K) -> Event K -> option string.
Variable run : K -> M K (option error).

Lemma BeginInteractiveRebaseForCommit_begun (commits : list Commit)
  (commitIndex : Z) (past : list (Event K)) (c c1 : GitCommand K)
  (begun : list (Event K)) :
  BeginInteractiveRebaseForCommit os respond commits commitIndex past c =
    (Returns None, c1, begun) ->
  c1 = c /\ usingGpg c = false /\
  exists sha todo, begun = [rebaseEvent os sha todo].
Proof.
  rewrite BeginInteractiveRebaseForCommit_unfold.
  destruct (int_sub (len commits) 1 <? commitIndex)%Z; [discriminate|].
  destruct (usingGpg c); [discriminate|].
  destruct (GenerateGenericRebaseTodo commits commitIndex "edit")
    as [[[todo sha] [e|]]|p]; try discriminate.
  intros [= _ <- <-]. repeat split. now exists sha, todo.
Qed.

(** The amend and the continue, once the index holds what it should. *)
Lemma amend_then_continue (past : list (Event K)) (c : GitCommand K) :
  usingGpg c = false ->
  succeedInTurn respond past [amendEvent; mergeEvent os "rebase" "continue"] ->
  bind (AmendHead os respond)
    (fun amended =>
       match amended with
       | (Some _, _) => ret (Some (Plain "received unexpected pointer to cmd"))
       | (None, Some e) => ret (Some e)
       | (None, None) => GenericMerge os respond run "rebase" "continue"
       end) past c =
  thenContinue run past c [amendEvent; mergeEvent os "rebase" "continue"].
Proof.
  intros Hgpg (Hamend & Hcont & _).
  unfold bind at 1. unfold AmendHead, bind, getUsingGpg, call, ret.
  rewrite Hgpg. cbn [app]. rewrite (app_nil_r past).
  unfold amendEvent in Hamend. rewrite Hamend. cbn [option_map app].
  rewrite GenericMerge_unfold. cbn zeta.
  unfold amendEvent in Hcont. rewrite Hcont. cbn [andb String.eqb Ascii.eqb].
  unfold thenContinue.
  destruct (onSuccessfulContinue c) as [f|]; [|reflexivity].
  cbn. rewrite <- !app_assoc. cbn [app].
  now destruct (run f _ _) as [[r c'] added].
Qed.

Lemma DiscardOldFileChanges_absent (commits : list Commit)
  (commitIndex : Z) (fileName : string) (past : list (Event K))
  (c c1 : GitCommand K) (begun : list (Event K)) :
  BeginInteractiveRebaseForCommit os respond commits commitIndex past c =
    (Returns None, c1, begun) ->
  respond (past ++ begun)%list (probeEvent fileName) <> None ->
  succeedInTurn respond (past ++ begun ++ [probeEvent fileName])%list
    (removal os fileName) ->
  DiscardOldFileChanges os respond run commits commitIndex fileName past c =
  thenContinue run past c
    (begun ++ probeEvent fileName :: removal os fileName)%list.
Proof.
  intros HB Hp (Hrm & Hadd & Hrest).
  destruct (BeginInteractiveRebaseForCommit_begun _ _ _ _ _ _ HB)
    as (-> & Hgpg & _).
  repeat (rewrite <- app_assoc in Hadd; cbn [app] in Hadd).
  repeat (rewrite <- app_assoc in Hrest; cbn [app] in Hrest).
  unfold DiscardOldFileChanges. unfold bind at 1. rewrite HB.
  unfold bind at 1. unfold call at 1.
  unfold probeEvent in Hp, Hrm, Hadd, Hrest.
  destruct (respond (past ++ begun)%list _) as [stderr|]; [|contradiction].
  cbn [option_map].
  unfold bind at 1. unfold bind at 1. unfold call at 1.
  rewrite <- !app_assoc. cbn [app]. rewrite Hrm. cbn [option_map].
  unfold StageFile, call at 1. rewrite <- !app_assoc. cbn [app].
  rewrite Hadd. cbn [option_map].
  rewrite (amend_then_continue _ c Hgpg Hrest).
  unfold thenContinue, removal, probeEvent.
  destruct (onSuccessfulContinue c) as [f|]; [|reflexivity].
  repeat (rewrite <- app_assoc; cbn [app]).
  destruct (run f _ _) as [[r c'] added].
  repeat (rewrite <- app_assoc; cbn [app]). reflexivity.
Qed.

Lemma DiscardOldFileChanges_present (commits : list Commit)
  (commitIndex : Z) (fileName : string) (past : list (Event K))
  (c c1 : GitCommand K) (begun : list (Event K)) :
  BeginInteractiveRebaseForCommit os respond commits commitIndex past c =
    (Returns None, c1, begun) ->
  respond (past ++ begun)%list (probeEvent fileName) = None ->
  succeedInTurn respond (past ++ begun ++ [probeEvent fileName])%list
    (restore os fileName) ->
  DiscardOldFileChanges os respond run commits commitIndex fileName past c =
  thenContinue run past c
    (begun ++ probeEvent fileName :: restore os fileName)%list.
Proof.
  intros HB Hp (Hco & Hrest).
  destruct (BeginInteractiveRebaseForCommit_begun _ _ _ _ _ _ HB)
    as (-> & Hgpg & _).
  repeat (rewrite <- app_assoc in Hrest; cbn [app] in Hrest).
  unfold DiscardOldFileChanges. unfold bind at 1. rewrite HB.
  unfold bind at 1. unfold call at 1.
  unfold probeEvent in Hp, Hco, Hrest. unfold checkoutEvent in Hco, Hrest.
  rewrite Hp. cbn [option_map].
  unfold bind at 1. unfold CheckoutFile, call at 1.
  rewrite <- !app_assoc. cbn [app].
  change ("git checkout " ++ "HEAD^" ++ " " ++ fileName)
    with ("git checkout HEAD^ " ++ fileName).
  rewrite Hco. cbn [option_map].
  rewrite (amend_then_continue _ c Hgpg Hrest).
  unfold thenContinue, restore, probeEvent, checkoutEvent.
  destruct (onSuccessfulContinue c) as [f|]; [|reflexivity].
  repeat (rewrite <- app_assoc; cbn [app]).
  destruct (run f _ _) as [[r c'] added].
  repeat (rewrite <- app_assoc; cbn [app]). reflexivity.
Qed.

(** C8: once the rebase has begun, a file the probe does not find in the
    parent is removed and the removal staged, with no checkout; then the
    commit is amended and the rebase continued: four calls after the probe, in
    that order.  A file the probe finds is checked out from the parent
    instead.  What follows is the pending closure, if there is one. *)
Theorem DiscardOldFileChanges_steps (commits : list Commit)
  (commitIndex : Z) (fileName : string) (past : list (Event K))
  (c c1 : GitCommand K) (begun : list (Event K)) :
  BeginInteractiveRebaseForCommit os respond commits commitIndex past c =
    (Returns None, c1, begun) ->
  (respond (past ++ begun)%list (probeEvent fileName) <> None ->
   succeedInTurn respond (past ++ begun ++ [probeEvent fileName])%list
     (removal os fileName) ->
   DiscardOldFileChanges os respond run commits commitIndex fileName past c =
   thenContinue run past c
     (begun ++ probeEvent fileName :: removal os fileName)%list) /\
  (respond (past ++ begun)%list (probeEvent fileName) = None ->
   succeedInTurn respond (past ++ begun ++ [probeEvent fileName])%list
     (restore os fileName) ->
   DiscardOldFileChanges os respond run commits commitIndex fileName past c =
   thenContinue run past c
     (begun ++ probeEvent fileName :: restore os fileName)%list) /\
  List.length (removal (K := K) os fileName) = 4%nat /\
  removal (K := K) os fileName =
    [Remove fileName; RunCommand ("git add " ++ Quote os fileName);
     amendEvent; mergeEvent os "rebase" "continue"] /\
  ~ In (checkoutEvent fileName) (probeEvent fileName :: removal (K := K) os fileName) /\
  List.length
    (filter isSubprocess (probeEvent fileName :: removal (K := K) os fileName)) =
  4%nat.
Proof.
  intros HB. split; [|split; [|split; [|split; [|split]]]].
  - now apply DiscardOldFileChanges_absent with (c1 := c1).
  - now apply DiscardOldFileChanges_present with (c1 := c1).
  - reflexivity.
  - reflexivity.
  - unfold removal, probeEvent, checkoutEvent, amendEvent, mergeEvent.
    cbn [In]. intros [H|[H|[H|[H|[H|[]]]]]]; discriminate.
  - reflexivity.
Qed.

End DiscardFacts.

Lemma DiscardOldFileChanges_steps_witness :
  DiscardOldFileChanges dummyOS absentInParent runNothing threeCommits 0
    "f.txt" [] (dummyGit "" None) =
  (Returns None, dummyGit "" None,
   [rebaseEvent dummyOS "c2"
      (String.append "edit c3 third" (String "010" ""));
    probeEvent "f.txt"; Remove "f.txt"; RunCommand "git add 'f.txt'";
    amendEvent; mergeEvent dummyOS "rebase" "continue"]) /\
  DiscardOldFileChanges dummyOS allSucceed runNothing threeCommits 0
    "f.txt" [] (dummyGit "" None) =
  (Returns None, dummyGit "" None,
   [rebaseEvent dummyOS "c2"
      (String.append "edit c3 third" (String "010" ""));
    probeEvent "f.txt"; checkoutEvent "f.txt";
    amendEvent; mergeEvent dummyOS "rebase" "continue"]).
Proof.
  split.
  - apply (proj1 (DiscardOldFileChanges_steps nat dummyOS absentInParent
                    runNothing threeCommits 0 "f.txt" [] (dummyGit "" None)
                    (dummyGit "" None)
                    [rebaseEvent dummyOS "c2"
                       (String.append "edit c3 third" (String "010" ""))]
                    eq_refl)).
    + discriminate.
    + cbn. repeat split.
  - apply (proj1 (proj2 (DiscardOldFileChanges_steps nat dummyOS allSucceed
                    runNothing threeCommits 0 "f.txt" [] (dummyGit "" None)
                    (dummyGit "" None)
                    [rebaseEvent dummyOS "c2"
                       (String.append "edit c3 third" (String "010" ""))]
                    eq_refl))).
    + reflexivity.
    + cbn. repeat split.
Defined.

(** * Further properties *)

(** ** [strings.Split] and [strings.Join] *)

Lemma prefix_split (p s : string) :
  prefix p s = true -> exists rest, s = p ++ rest.
Proof.
  revert s. induction p as [|a p IH]; intros s H.
  - now exists s.
  - destruct s as [|b s]; cbn in H; [discriminate|].
    destruct (ascii_dec a b) as [->|]; [|discriminate].
    destruct (IH _ H) as [rest ->]. now exists rest.
Qed.

Lemma concat_cons (sep x : string) (l : list string) :
  l <> [] -> String.concat sep (x :: l) = x ++ sep ++ String.concat sep l.
Proof. destruct l; [contradiction | reflexivity]. Qed.

Lemma splitFrom_nonempty (sep s : string) :
  forall skip cur, splitFrom sep s skip cur <> [].
Proof.
  induction s as [|a s IH]; cbn [splitFrom]; intros skip cur; [discriminate|].
  destruct skip; [|apply IH].
  destruct (prefix sep (String a s)); [discriminate | apply IH].
Qed.

Lemma splitFrom_skip (sep t s cur : string) :
  splitFrom sep (t ++ s) (String.length t) cur = splitFrom sep s 0 cur.
Proof. induction t as [|a t IH]; cbn; [reflexivity | exact IH]. Qed.

Lemma length_append (a b : string) :
  String.length (a ++ b) = (String.length a + String.length b)%nat.
Proof. induction a; cbn; [|rewrite IHa]; reflexivity. Qed.

Lemma splitFrom_concat (sep : string) :
  sep <> "" ->
  forall n s cur,
    (String.length s <= n)%nat ->
    String.concat sep (splitFrom sep s 0 cur) = cur ++ s.
Proof.
  intros Hsep. induction n as [|n IH]; intros s cur Hn.
  - destruct s; [|cbn in Hn; lia]. cbn. now rewrite append_nil_r.
  - destruct s as [|a s]; [cbn; now rewrite append_nil_r|].
    cbn [splitFrom]. destruct (prefix sep (String a s)) eqn:Hp.
    + destruct (prefix_split _ _ Hp) as [rest E].
      destruct sep as [|b sep']; [congruence|].
      cbn in E. injection E as -> ->.
      cbn [String.length]. rewrite Nat.sub_succ, Nat.sub_0_r, splitFrom_skip.
      rewrite concat_cons by apply splitFrom_nonempty.
      rewrite IH by (cbn in Hn; rewrite length_append in Hn; lia).
      reflexivity.
    + rewrite IH by (cbn in Hn; lia).
      now rewrite append_assoc.
Qed.

(** Joining what was split gives the string back. *)
Lemma Join_Split (s sep : string) : sep <> "" -> Join (Split s sep) sep = s.
Proof.
  intros H. unfold Join, Split.
  now rewrite (splitFrom_concat sep H (String.length s) s "").
Qed.

Lemma splitFrom_byte (c a : ascii) (s cur : string) :
  splitFrom (String c "") (String a s) 0 cur =
  if Ascii.eqb a c then cur :: splitFrom (String c "") s 0 ""
  else splitFrom (String c "") s 0 (cur ++ String a "").
Proof.
  cbn [splitFrom prefix String.length Nat.sub].
  destruct (ascii_dec c a) as [->|Hne].
  - rewrite Ascii.eqb_refl. now destruct s.
  - destruct (Ascii.eqb_spec a c); [congruence | reflexivity].
Qed.

(** Splitting at a byte: the first piece, and the split of what follows. *)
Lemma splitFrom_first (c : ascii) (s : string) :
  forall cur,
    splitFrom (String c "") s 0 cur =
    (cur ++ beforeByte c s) ::
    (if contains c s then splitFrom (String c "") (afterByte c s) 0 ""
     else []).
Proof.
  induction s as [|a s IH]; intros cur.
  - cbn. now rewrite append_nil_r.
  - rewrite splitFrom_byte. cbn [beforeByte contains afterByte].
    destruct (Ascii.eqb a c).
    + now rewrite append_nil_r.
    + rewrite IH, append_assoc. reflexivity.
Qed.

Lemma contains_append (c : ascii) (a b : string) :
  contains c (a ++ b) = contains c a || contains c b.
Proof.
  induction a as [|x a IH]; cbn; [reflexivity|].
  now destruct (Ascii.eqb x c).
Qed.

(** No piece of a split at a byte holds the byte. *)
Lemma splitFrom_clean (c : ascii) (s : string) :
  forall cur,
    contains c cur = false ->
    Forall (fun piece => contains c piece = false)
      (splitFrom (String c "") s 0 cur).
Proof.
  induction s as [|a s IH]; intros cur Hcur.
  - cbn. now constructor.
  - rewrite splitFrom_byte. destruct (Ascii.eqb a c) eqn:E.
    + constructor; [assumption | now apply IH].
    + apply IH. rewrite contains_append, Hcur. cbn. now rewrite E.
Qed.

Lemma splitFrom_clean_prefix (c : ascii) (x s : string) :
  contains c x = false ->
  forall cur,
    splitFrom (String c "") (x ++ s) 0 cur =
    splitFrom (String c "") s 0 (cur ++ x).
Proof.
  induction x as [|a x IH]; intros Hx cur.
  - cbn [append]. now rewrite append_nil_r.
  - cbn in Hx. destruct (Ascii.eqb a c) eqn:E; [discriminate|].
    cbn [append]. rewrite splitFrom_byte, E, IH by assumption.
    now rewrite append_assoc.
Qed.

(** Splitting what was joined gives the pieces back, when none of them
    holds the separating byte. *)
Lemma Split_Join (c : ascii) (lines : list string) :
  lines <> [] ->
  Forall (fun line => contains c line = false) lines ->
  Split (Join lines (String c "")) (String c "") = lines.
Proof.
  unfold Split, Join. intros Hne HF.
  induction HF as [|x l Hx HF IH]; [contradiction|].
  destruct l as [|y l].
  - cbn [String.concat]. rewrite <- (append_nil_r x) at 1.
    now rewrite splitFrom_clean_prefix.
  - rewrite concat_cons by discriminate. cbn [append].
    rewrite splitFrom_clean_prefix by assumption.
    rewrite splitFrom_byte, Ascii.eqb_refl. cbn [append].
    now rewrite IH.
Qed.

(** The words after the first, joined again, are what follows the first
    space. *)
Lemma Join_words (c : ascii) (line : string) :
  Join (skipn 1 (Split line (String c ""))) (String c "") = afterByte c line.
Proof.
  unfold Split, Join. rewrite splitFrom_first. cbn [skipn].
  destruct (contains c line) eqn:E.
  - assert (Hsep : String c "" <> "") by discriminate.
    now rewrite (splitFrom_concat _ Hsep _ _ "" (Nat.le_refl _)).
  - clear - E. induction line as [|a line IH]; cbn in *; [reflexivity|].
    destruct (Ascii.eqb a c); [discriminate | auto].
Qed.

(** ** The todo file *)

Lemma countTodo_filter (content : list string) :
  forall commitCount,
    countTodo content commitCount =
    (commitCount + Z.of_nat (List.length (filter isTodoLine content)))%Z.
Proof.
  induction content as [|line rest IH]; intros commitCount;
    cbn [countTodo filter].
  - cbn. lia.
  - rewrite IH. fold (isTodoLine line).
    destruct (isTodoLine line); cbn [List.length]; lia.
Qed.

Lemma getTodoCommitCount_filter (content : list string) :
  getTodoCommitCount content =
  Z.of_nat (List.length (filter isTodoLine content)).
Proof. unfold getTodoCommitCount. now rewrite countTodo_filter. Qed.

(** There are no more commits than lines. *)
Lemma getTodoCommitCount_bounds (content : list string) :
  (0 <= getTodoCommitCount content <= len content)%Z.
Proof.
  rewrite getTodoCommitCount_filter. unfold len.
  pose proof (filter_length_le isTodoLine content). lia.
Qed.

Lemma nth_error_split {A : Type} (l : list A) (i : nat) (a : A) :
  nth_error l i = Some a ->
  l = (firstn i l ++ a :: skipn (S i) l)%list.
Proof.
  revert i. induction l as [|x l IH]; intros [|i] H; cbn in H;
    try discriminate.
  - now injection H as ->.
  - cbn. f_equal. now apply IH.
Qed.

Lemma Forall_replaceAt {A : Type} (P : A -> Prop) (l : list A) (i : nat)
  (a : A) :
  Forall P l -> P a -> Forall P (replaceAt l i a).
Proof.
  intros Hl Ha. unfold replaceAt. apply Forall_app. split.
  - rewrite <- (firstn_skipn i l) in Hl. now apply Forall_app in Hl.
  - constructor; [assumption|].
    rewrite <- (firstn_skipn (S i) l) in Hl. now apply Forall_app in Hl.
Qed.

Lemma count_replaceAt (content : list string) (i : nat) (old new : string) :
  nth_error content i = Some old ->
  isTodoLine new = isTodoLine old ->
  getTodoCommitCount (replaceAt content i new) = getTodoCommitCount content.
Proof.
  intros Hnth Hsame. rewrite !getTodoCommitCount_filter.
  rewrite (nth_error_split content i old Hnth) at 2. unfold replaceAt.
  rewrite !filter_app. cbn [filter]. rewrite Hsame.
  destruct (isTodoLine old); now rewrite !length_app.
Qed.

Lemma contains_afterByte (c d : ascii) (s : string) :
  contains c s = false -> contains c (afterByte d s) = false.
Proof.
  induction s as [|a s IH]; cbn; [reflexivity|].
  destruct (Ascii.eqb a c); [discriminate|]. intros H.
  destruct (Ascii.eqb a d); auto.
Qed.

Lemma wrap_sub_index (count index : Z) :
  is_int count -> (0 <= count)%Z -> is_int index ->
  (0 <= index)%Z \/ (count - 1 - index <= int_max)%Z ->
  int_sub (int_sub count 1) index = (count - 1 - index)%Z.
Proof.
  unfold is_int, int_min, int_max. intros Hc H0 Hi Hno.
  unfold int_sub. rewrite (wrap_small (count - 1)), wrap_small;
    unfold is_int, int_min, int_max in *; lia.
Qed.

Lemma prefix_byte (c a : ascii) (s t : string) :
  prefix (String c "") (String a s) = prefix (String c "") (String a t).
Proof.
  cbn [prefix]. destruct (ascii_dec c a); [|reflexivity].
  now destruct s, t.
Qed.

Section TodoFileFacts.

Variable DotGitDir : string.
Variable ReadFile : string -> string + error.

Lemma lines_clean (bytes : string) :
  Forall (fun line => contains "010" line = false) (Split bytes newline).
Proof. unfold Split, newline. now apply splitFrom_clean. Qed.

Lemma lines_nonempty (bytes : string) : Split bytes newline <> [].
Proof. apply splitFrom_nonempty. Qed.

Lemma count_is_int (content : list string) :
  is_int (len content) -> is_int (getTodoCommitCount content).
Proof.
  pose proof (getTodoCommitCount_bounds content).
  unfold is_int, int_min, int_max. lia.
Qed.

(** X7: Editing the action of a todo: the line counted [index] from the last
    commit line gets the action for its first word; the file keeps its other
    lines, and its count of commits when the line was one of them and the
    action is no comment. *)
Theorem EditRebaseTodo_edits (bytes : string) (index : Z) (action : string) :
  ReadFile (todoFileName DotGitDir) = inl bytes ->
  is_int (len (Split bytes newline)) ->
  (0 <= index < getTodoCommitCount (Split bytes newline))%Z ->
  contains "010" action = false ->
  let lines := Split bytes newline in
  let position := Z.to_nat (getTodoCommitCount lines - 1 - index) in
  exists line result,
    nth_error lines position = Some line /\
    EditRebaseTodo DotGitDir ReadFile index action =
      Returns (WriteFile (todoFileName DotGitDir) result) /\
    Split result newline =
      replaceAt lines position (action ++ " " ++ afterByte " " line) /\
    (isTodoLine line = true -> HasPrefix action "#" = false ->
     getTodoCommitCount (Split result newline) = getTodoCommitCount lines).
Proof.
  intros Hread Hint Hidx Hact lines position.
  pose proof (getTodoCommitCount_bounds lines) as Hb. fold lines in Hidx, Hint.
  set (count := getTodoCommitCount lines) in *.
  assert (Hci : int_sub (int_sub count 1) index = (count - 1 - index)%Z).
  { apply wrap_sub_index; unfold is_int, int_min, int_max in *; lia. }
  destruct (elem_in_range lines (count - 1 - index)) as (line & Eline & Nline);
    [lia|].
  fold position in Nline.
  set (new := action ++ " " ++ afterByte " " line).
  assert (Hnew : contains "010" new = false).
  { unfold new. rewrite !contains_append, Hact. cbn [orb].
    change (contains "010" " ") with false. cbn [orb].
    apply contains_afterByte.
    pose proof (lines_clean bytes) as HF. rewrite Forall_forall in HF.
    apply HF. eapply nth_error_In, Nline. }
  assert (Hrun : EditRebaseTodo DotGitDir ReadFile index action =
                 Returns (WriteFile (todoFileName DotGitDir)
                            (Join (replaceAt lines position new) newline))).
  { unfold EditRebaseTodo. rewrite Hread. fold lines. fold count.
    rewrite Hci, Eline. cbn [obind].
    unfold slice_from.
    assert (Hw : (1 <= len (Split line " "))%Z).
    { unfold len. destruct (Split line " ") eqn:E; [|cbn; lia].
      now apply splitFrom_nonempty in E. }
    destruct (Z.ltb_spec 1 0); [lia|].
    destruct (Z.ltb_spec (len (Split line " ")) 1); [lia|].
    cbn [orb obind]. change (Z.to_nat 1) with 1%nat.
    rewrite (Join_words " " line). unfold store.
    destruct (Z.ltb_spec (count - 1 - index) 0); [lia|].
    destruct (Z.leb_spec (len lines) (count - 1 - index)); [lia|].
    reflexivity. }
  exists line, (Join (replaceAt lines position new) newline).
  assert (Hsplit : Split (Join (replaceAt lines position new) newline) newline
                   = replaceAt lines position new).
  { unfold newline. apply Split_Join.
    - unfold replaceAt. now destruct (firstn position lines).
    - apply Forall_replaceAt; [apply lines_clean | exact Hnew]. }
  repeat split; try assumption.
  intros Htodo Hcomment. rewrite Hsplit.
  apply (count_replaceAt lines position line new Nline).
  rewrite Htodo. unfold isTodoLine, new, HasPrefix in *.
  destruct action as [|a action]; [reflexivity|].
  cbn [append String.eqb negb andb].
  now rewrite (prefix_byte "#" a _ action), Hcomment.
Qed.

(** X8: Nothing is written when the file cannot be read, and an index that is
    not below the count of commits makes the edit panic. *)
Theorem EditRebaseTodo_writes_nothing (index : Z) (action : string) :
  (forall err,
      ReadFile (todoFileName DotGitDir) = inr err ->
      EditRebaseTodo DotGitDir ReadFile index action =
        Returns (ReadError err)) /\
  (forall bytes,
      ReadFile (todoFileName DotGitDir) = inl bytes ->
      is_int (len (Split bytes newline)) ->
      is_int index ->
      (getTodoCommitCount (Split bytes newline) <= index)%Z ->
      EditRebaseTodo DotGitDir ReadFile index action =
        Panics IndexOutOfRange).
Proof.
  split.
  - intros err H. unfold EditRebaseTodo. now rewrite H.
  - intros bytes Hread Hint Hi Hidx. unfold EditRebaseTodo. rewrite Hread.
    pose proof (getTodoCommitCount_bounds (Split bytes newline)) as Hb.
    rewrite wrap_sub_index;
      try (unfold is_int, int_min, int_max in *; lia).
    unfold elem.
    destruct (Z.ltb_spec
                (getTodoCommitCount (Split bytes newline) - 1 - index) 0);
      [reflexivity | lia].
Qed.

End TodoFileFacts.

Lemma skipn_two {A : Type} (l : list A) (i : nat) (a b : A) :
  nth_error l i = Some a ->
  nth_error l (S i) = Some b ->
  skipn i l = a :: b :: skipn (S (S i)) l.
Proof.
  revert i. induction l as [|x l IH]; intros [|i] Ha Hb; cbn in Ha, Hb;
    try discriminate.
  - injection Ha as ->. destruct l as [|y l]; [discriminate|].
    cbn in Hb. now injection Hb as ->.
  - cbn [skipn]. now apply IH.
Qed.

(** [swapAt] on a list that has the two positions. *)
Lemma swapAt_split {A : Type} (l : list A) (i : nat) :
  (S i < List.length l)%nat ->
  exists a b,
    nth_error l i = Some a /\ nth_error l (S i) = Some b /\
    l = (firstn i l ++ a :: b :: skipn (S (S i)) l)%list /\
    swapAt l i = (firstn i l ++ b :: a :: skipn (S (S i)) l)%list.
Proof.
  intros H.
  destruct (nth_error l i) as [a|] eqn:Ha;
    [|apply nth_error_None in Ha; lia].
  destruct (nth_error l (S i)) as [b|] eqn:Hb;
    [|apply nth_error_None in Hb; lia].
  exists a, b. pose proof (skipn_two l i a b Ha Hb) as E.
  repeat split.
  - rewrite <- E. symmetry. apply firstn_skipn.
  - unfold swapAt. now rewrite E.
Qed.

Lemma swapAt_involutive {A : Type} (l : list A) (i : nat) :
  swapAt (swapAt l i) i = l.
Proof.
  destruct (Nat.lt_ge_cases (S i) (List.length l)) as [H|H].
  - destruct (swapAt_split l i H) as (a & b & _ & _ & El & Es).
    assert (Hi : List.length (firstn i l) = i)
      by (rewrite length_firstn; lia).
    rewrite Es. unfold swapAt.
    rewrite skipn_app, Hi, Nat.sub_diag, (skipn_all2 (firstn i l)) by lia.
    cbn [skipn app].
    rewrite firstn_app, Hi, Nat.sub_diag, (firstn_all2 (firstn i l)) by lia.
    cbn [firstn]. rewrite app_nil_r. now symmetry.
  - assert (E : swapAt l i = l).
    { unfold swapAt. destruct (skipn i l) as [|a [|b rest]] eqn:E; try reflexivity.
      assert (List.length (skipn i l) = (List.length l - i)%nat)
        by apply length_skipn.
      rewrite E in *. cbn in *. lia. }
    now rewrite !E.
Qed.

Lemma swapAt_Permutation {A : Type} (l : list A) (i : nat) :
  Permutation (swapAt l i) l.
Proof.
  unfold swapAt. destruct (skipn i l) as [|a [|b rest]] eqn:E;
    try reflexivity.
  rewrite <- (firstn_skipn i l) at 2. rewrite E.
  apply Permutation_app_head, perm_swap.
Qed.

Lemma count_swapAt (content : list string) (i : nat) :
  getTodoCommitCount (swapAt content i) = getTodoCommitCount content.
Proof.
  rewrite !getTodoCommitCount_filter. unfold swapAt.
  destruct (skipn i content) as [|a [|b rest]] eqn:E; try reflexivity.
  rewrite <- (firstn_skipn i content) at 2. rewrite E, !filter_app.
  cbn [filter]. rewrite !length_app.
  destruct (isTodoLine a), (isTodoLine b); reflexivity.
Qed.

(** The two in-place [append]s exchange the two lines and keep the rest. *)
Lemma swapLines_swapAt (content : list string) (contentIndex : Z) :
  is_int (len content) ->
  (1 <= contentIndex < len content)%Z ->
  swapLines content contentIndex =
  Returns (swapAt content (Z.to_nat contentIndex - 1)).
Proof.
  intros Hint Hci. unfold is_int, int_min, int_max in Hint.
  set (i := (Z.to_nat contentIndex - 1)%nat).
  assert (Hlen : (S i < List.length content)%nat)
    by (unfold len in *; lia).
  destruct (swapAt_split content i Hlen) as (a & b & Ha & Hb & El & Es).
  unfold swapLines, int_sub, int_add.
  rewrite !(wrap_small (contentIndex - 1))
    by (unfold is_int, int_min, int_max; lia).
  rewrite (wrap_small (contentIndex + 1))
    by (unfold is_int, int_min, int_max; lia).
  rewrite slice_to_in_range by lia.
  replace (Z.to_nat (contentIndex - 1)) with i by lia.
  assert (Eb : elem content contentIndex = Returns b).
  { apply elem_Returns. split; [lia|].
    now replace (Z.to_nat contentIndex) with (S i) by lia. }
  assert (Ea : elem content (contentIndex - 1) = Returns a).
  { apply elem_Returns. split; [lia|].
    now replace (Z.to_nat (contentIndex - 1)) with i by lia. }
  rewrite Eb, Ea. cbn [obind].
  assert (Hl : List.length (firstn i content ++ [b; a])%list = S (S i)).
  { rewrite length_app, length_firstn. cbn. lia. }
  rewrite Hl. unfold slice_from.
  assert (Hl2 : len ((firstn i content ++ [b; a]) ++ skipn (S (S i)) content)
                = len content).
  { unfold len. rewrite length_app, Hl, length_skipn. lia. }
  rewrite Hl2.
  destruct (Z.ltb_spec (contentIndex + 1) 0); [lia|].
  destruct (Z.ltb_spec (len content) (contentIndex + 1)); [lia|].
  cbn [orb obind].
  replace (Z.to_nat (contentIndex + 1)) with (S (S i)) by lia.
  rewrite skipn_app, Hl, Nat.sub_diag, (skipn_all2 (firstn i content ++ [b; a]))
    by lia.
  cbn [skipn app]. rewrite Es, <- app_assoc. reflexivity.
Qed.

Section MoveTodoDownFacts.

Variable DotGitDir : string.

Lemma MoveTodoDown_runs (ReadFile : string -> string + error)
  (bytes : string) (index : Z) :
  ReadFile (todoFileName DotGitDir) = inl bytes ->
  is_int (len (Split bytes newline)) ->
  (0 <= index)%Z ->
  (index + 1 < getTodoCommitCount (Split bytes newline))%Z ->
  let lines := Split bytes newline in
  let position :=
    (Z.to_nat (getTodoCommitCount lines - 1 - index) - 1)%nat in
  MoveTodoDown DotGitDir ReadFile index =
    Returns (WriteFile (todoFileName DotGitDir)
               (Join (swapAt lines position) newline)) /\
  Split (Join (swapAt lines position) newline) newline = swapAt lines position.
Proof.
  intros Hread Hint H0 Hidx lines position.
  pose proof (getTodoCommitCount_bounds lines) as Hb.
  fold lines in Hint, Hidx.
  set (count := getTodoCommitCount lines) in *.
  split.
  - unfold MoveTodoDown. rewrite Hread. fold lines. fold count.
    rewrite wrap_sub_index by (unfold is_int, int_min, int_max in *; lia).
    rewrite swapLines_swapAt by (assumption || lia). reflexivity.
  - unfold newline. apply Split_Join.
    + intros E. apply (f_equal (@List.length string)) in E.
      rewrite (Permutation_length (swapAt_Permutation lines position)) in E.
      unfold len in *. cbn in E. lia.
    + apply (Permutation_Forall (Permutation_sym
                                   (swapAt_Permutation lines position))).
      apply lines_clean.
Qed.

(** X9: Moving a todo down exchanges its line with the line above it in the
    file, keeps every line and the count of commits, and doing it again at
    the same index restores the file byte for byte. *)
Theorem MoveTodoDown_swaps (ReadFile : string -> string + error)
  (bytes : string) (index : Z) :
  ReadFile (todoFileName DotGitDir) = inl bytes ->
  is_int (len (Split bytes newline)) ->
  (0 <= index)%Z ->
  (index + 1 < getTodoCommitCount (Split bytes newline))%Z ->
  let lines := Split bytes newline in
  let position :=
    (Z.to_nat (getTodoCommitCount lines - 1 - index) - 1)%nat in
  exists result,
    MoveTodoDown DotGitDir ReadFile index =
      Returns (WriteFile (todoFileName DotGitDir) result) /\
    Split result newline = swapAt lines position /\
    Permutation (Split result newline) lines /\
    getTodoCommitCount (Split result newline) = getTodoCommitCount lines /\
    MoveTodoDown DotGitDir (fun _ => inl result) index =
      Returns (WriteFile (todoFileName DotGitDir) bytes).
Proof.
  intros Hread Hint H0 Hidx lines position.
  destruct (MoveTodoDown_runs ReadFile bytes index Hread Hint H0 Hidx)
    as [Hrun Hsplit].
  fold lines in Hrun, Hsplit. fold position in Hrun, Hsplit.
  exists (Join (swapAt lines position) newline).
  split; [exact Hrun | split; [exact Hsplit|]].
  rewrite Hsplit.
  split; [apply swapAt_Permutation | split; [apply count_swapAt|]].
  destruct (MoveTodoDown_runs (fun _ => inl (Join (swapAt lines position) newline))
              (Join (swapAt lines position) newline) index eq_refl)
    as [Hagain _].
  - rewrite Hsplit. unfold len in *.
    now rewrite (Permutation_length (swapAt_Permutation lines position)).
  - exact H0.
  - now rewrite Hsplit, count_swapAt.
  - rewrite Hagain, Hsplit, count_swapAt. fold position.
    rewrite swapAt_involutive. unfold lines.
    now rewrite Join_Split by discriminate.
Qed.

(** X10: The todo at the top of the file cannot be moved: with an index that is
    not below the count of commits less one, the slice expression
    [content[0:contentIndex-1]] is out of range. *)
Theorem MoveTodoDown_top_panics (ReadFile : string -> string + error)
  (bytes : string) (index : Z) :
  ReadFile (todoFileName DotGitDir) = inl bytes ->
  is_int (len (Split bytes newline)) ->
  (getTodoCommitCount (Split bytes newline) - 1 <= index < int_max)%Z ->
  MoveTodoDown DotGitDir ReadFile index = Panics SliceBoundsOutOfRange.
Proof.
  intros Hread Hint Hidx.
  pose proof (getTodoCommitCount_bounds (Split bytes newline)) as Hb.
  unfold MoveTodoDown. rewrite Hread.
  rewrite wrap_sub_index by (unfold is_int, int_min, int_max in *; lia).
  unfold swapLines, int_sub.
  rewrite wrap_small by (unfold is_int, int_min, int_max in *; lia).
  rewrite slice_to_negative by lia. reflexivity.
Qed.

End MoveTodoDownFacts.

Lemma EditRebaseTodo_edits_witness :
  let lines := Split todoBytes newline in
  let position := Z.to_nat (getTodoCommitCount lines - 1 - 0) in
  exists line result,
    nth_error lines position = Some line /\
    EditRebaseTodo ".git" todoReadFile 0 "edit" =
      Returns (WriteFile (todoFileName ".git") result) /\
    Split result newline =
      replaceAt lines position ("edit" ++ " " ++ afterByte " " line) /\
    (isTodoLine line = true -> HasPrefix "edit" "#" = false ->
     getTodoCommitCount (Split result newline) = getTodoCommitCount lines).
Proof.
  apply (EditRebaseTodo_edits ".git" todoReadFile todoBytes 0 "edit").
  - reflexivity.
  - split; vm_compute; discriminate.
  - split; vm_compute; [discriminate | reflexivity].
  - reflexivity.
Defined.

Lemma EditRebaseTodo_writes_nothing_witness :
  EditRebaseTodo ".git" (fun _ => inr (External "no such file")) 0 "edit" =
    Returns (ReadError (External "no such file")) /\
  EditRebaseTodo ".git" todoReadFile 3 "edit" = Panics IndexOutOfRange.
Proof.
  split.
  - apply (proj1 (EditRebaseTodo_writes_nothing ".git"
                    (fun _ => inr (External "no such file")) 0 "edit")).
    reflexivity.
  - apply (proj2 (EditRebaseTodo_writes_nothing ".git" todoReadFile 3 "edit")
             todoBytes).
    + reflexivity.
    + split; vm_compute; discriminate.
    + split; vm_compute; discriminate.
    + vm_compute. discriminate.
Defined.

Lemma MoveTodoDown_swaps_witness :
  let lines := Split todoBytes newline in
  let position := (Z.to_nat (getTodoCommitCount lines - 1 - 0) - 1)%nat in
  exists result,
    MoveTodoDown ".git" todoReadFile 0 =
      Returns (WriteFile (todoFileName ".git") result) /\
    Split result newline = swapAt lines position /\
    Permutation (Split result newline) lines /\
    getTodoCommitCount (Split result newline) = getTodoCommitCount lines /\
    MoveTodoDown ".git" (fun _ => inl result) 0 =
      Returns (WriteFile (todoFileName ".git") todoBytes).
Proof.
  apply (MoveTodoDown_swaps ".git" todoReadFile todoBytes 0).
  - reflexivity.
  - split; vm_compute; discriminate.
  - lia.
  - vm_compute. reflexivity.
Defined.

Lemma MoveTodoDown_top_panics_witness :
  MoveTodoDown ".git" todoReadFile 2 = Panics SliceBoundsOutOfRange.
Proof.
  apply (MoveTodoDown_top_panics ".git" todoReadFile todoBytes 2).
  - reflexivity.
  - split; vm_compute; discriminate.
  - split; vm_compute; [discriminate | reflexivity].
Defined.

(** ** More on the status parser *)

Lemma parsedFrom_keptFrom (os : OSCommand) (statusString : string)
  (file : File) :
  parsedFrom os statusString file -> keptFrom os statusString file.
Proof.
  unfold parsedFrom. intros H.
  destruct (wellFormed statusString) eqn:Hw.
  2:{ rewrite (statusFile_short os _ Hw) in H. discriminate. }
  destruct statusString as [|a [|b [|c rest]]]; try (cbn in Hw; discriminate).
  rewrite statusFile_long in H. injection H as <-.
  unfold keptFrom. cbn [DisplayString ShortStatus Name Type_ String.length].
  repeat split.
  cbn [Nat.sub]. rewrite Nat.sub_0_r. cbn [substring].
  now rewrite substring_all.
Qed.

(** X1: The parser loses no line and keeps their order: the lines can be read
    back from the files, and each file has the code and the name of its
    line. *)
Theorem GetStatusFiles_keeps_lines (os : OSCommand)
  (statusStrings : list string) (files : list File) :
  GetStatusFiles os statusStrings = Returns files ->
  map DisplayString files = statusStrings /\
  Forall2 (keptFrom os) statusStrings files.
Proof.
  intros H. apply statusLoop_returns in H as (parsed & -> & HF). cbn [app].
  assert (HK : Forall2 (keptFrom os) statusStrings parsed).
  { induction HF as [|l f ls fs Hf _ IH]; constructor;
      [exact (parsedFrom_keptFrom os l f Hf) | exact IH]. }
  split; [|exact HK].
  clear HF. induction HK as [|l f ls fs Hf _ IH]; cbn; [reflexivity|].
  destruct Hf as [-> _]. now rewrite IH.
Qed.

Lemma GetStatusFiles_keeps_lines_witness :
  map DisplayString
    [mkFile "file1.txt" "MM file1.txt" true true true false false false
       "other" "MM";
     mkFile "file4.txt" "?? file4.txt" false true false false false false
       "other" "??"] =
  ["MM file1.txt"; "?? file4.txt"] /\
  Forall2 (keptFrom dummyOS) ["MM file1.txt"; "?? file4.txt"]
    [mkFile "file1.txt" "MM file1.txt" true true true false false false
       "other" "MM";
     mkFile "file4.txt" "?? file4.txt" false true false false false false
       "other" "??"].
Proof.
  apply (GetStatusFiles_keeps_lines dummyOS). reflexivity.
Defined.

Ltac split_bytes :=
  repeat match goal with
         | |- context [Ascii.eqb ?x ?y] =>
             is_var x; destruct (Ascii.eqb_spec x y); [subst x|]
         end.

Lemma parsedFrom_invariant (os : OSCommand) (statusString : string)
  (file : File) :
  parsedFrom os statusString file -> parsedInvariant file.
Proof.
  unfold parsedFrom. intros H.
  destruct (wellFormed statusString) eqn:Hw.
  2:{ rewrite (statusFile_short os _ Hw) in H. discriminate. }
  destruct statusString as [|a [|b [|c rest]]]; try (cbn in Hw; discriminate).
  rewrite statusFile_long in H. injection H as <-. clear Hw.
  unfold parsedInvariant, inKeys.
  cbn [HasMergeConflicts Tracked HasUnstagedChanges HasStagedChanges Deleted
       existsb String.eqb].
  split_bytes; cbn; intuition (try discriminate; try congruence).
Qed.

(** X2: Every file the parser returns with a merge conflict is tracked and has
    unstaged changes, and every file it returns untracked or deleted has
    something staged or unstaged. *)
Theorem GetStatusFiles_invariant (os : OSCommand)
  (statusStrings : list string) (files : list File) :
  GetStatusFiles os statusStrings = Returns files ->
  Forall parsedInvariant files.
Proof.
  intros H. apply statusLoop_returns in H as (parsed & -> & HF). cbn [app].
  induction HF as [|l f ls fs Hf _ IH]; constructor;
    [exact (parsedFrom_invariant os l f Hf) | exact IH].
Qed.

Lemma GetStatusFiles_invariant_witness :
  Forall parsedInvariant
    [mkFile "file5.txt" "UU file5.txt" false true true false true true
       "other" "UU";
     mkFile "file3.txt" "A  file3.txt" true false false false false false
       "other" "A "].
Proof.
  apply (GetStatusFiles_invariant dummyOS ["UU file5.txt"; "A  file3.txt"]).
  reflexivity.
Defined.

(** ** More on the plan builder *)

(** X5: With an index from 0 on, [build] never panics: it returns an error or a
    plan, and a plan exactly when there is a commit at the base index. *)
Theorem GenerateGenericRebaseTodo_total (commits : list Commit)
  (actionIndex : Z) (action : string) :
  indexInRange actionIndex ->
  (0 <= actionIndex)%Z ->
  exists todo sha err,
    GenerateGenericRebaseTodo commits actionIndex action =
      Returns (todo, sha, err) /\
    (err = None <-> (baseIndexOf actionIndex action < len commits)%Z).
Proof.
  intros Hr H0.
  rewrite (GenerateGenericRebaseTodo_inRange commits actionIndex action Hr).
  rewrite (baseIndexOf_inRange actionIndex action Hr).
  cbn zeta. set (b := (actionIndex + 1 + (if isFold action then 1 else 0))%Z).
  assert (Hb : (actionIndex + 1 <= b)%Z)
    by (unfold b; destruct (isFold action); lia).
  destruct (Z.leb_spec (len commits) (actionIndex + 1)).
  { do 3 eexists. split; [reflexivity|]. split; [discriminate | lia]. }
  destruct (isFold action) eqn:Ef; cbn [andb].
  - destruct (Z.leb_spec (len commits) b).
    { do 3 eexists. split; [reflexivity|]. split; [discriminate | lia]. }
    rewrite slice_to_in_range by lia.
    destruct (elem_in_range commits b) as (base & -> & _); [lia|].
    cbn. do 3 eexists. split; [reflexivity|]. split; [lia | reflexivity].
  - rewrite slice_to_in_range by lia.
    destruct (elem_in_range commits b) as (base & -> & _); [lia|].
    cbn. do 3 eexists. split; [reflexivity|]. split; [lia | reflexivity].
Qed.

Lemma GenerateGenericRebaseTodo_total_witness :
  exists todo sha err,
    GenerateGenericRebaseTodo threeCommits 1 "fixup" =
      Returns (todo, sha, err) /\
    (err = None <-> (baseIndexOf 1 "fixup" < len threeCommits)%Z).
Proof.
  apply (GenerateGenericRebaseTodo_total threeCommits 1 "fixup").
  - unfold indexInRange, int_min, int_max. lia.
  - lia.
Defined.

(** ** More on the merge *)

(** X3: Whatever the two lists, the merge holds the entries of [newFiles] and no
    others: an entry may come twice, none is lost and none is made up. *)
Theorem MergeStatusFiles_same_entries (oldFiles newFiles : list File)
  (file : File) :
  In file (MergeStatusFiles oldFiles newFiles) <-> In file newFiles.
Proof.
  destruct oldFiles as [|o rest]; [reflexivity|].
  rewrite MergeStatusFiles_indexed by discriminate.
  set (old := o :: rest).
  assert (Hsub : forall p, In p (hits newFiles old) ->
                           In p (indexedFrom 0 newFiles)).
  { intros p Hp. apply In_hits in Hp as (o' & _ & E).
    now apply hit_indexed in E. }
  assert (Hidx : forall p, In p (indexedFrom 0 newFiles) ->
                           In (snd p) newFiles).
  { intros [j f] Hp. apply In_indexedFrom in Hp as [_ Hp].
    eapply nth_error_In, Hp. }
  rewrite in_map_iff. split.
  - intros (p & <- & Hp). apply Hidx.
    apply in_app_iff in Hp as [Hp|Hp]; [now apply Hsub|].
    now apply filter_In in Hp.
  - intros Hin. apply In_nth_error in Hin as [j Hj].
    assert (Hjf : In (j, file) (indexedFrom 0 newFiles)).
    { apply In_indexedFrom. split; [lia|]. now rewrite Nat.sub_0_r. }
    destruct (includesInt (map fst (hits newFiles old)) j) eqn:Ej.
    + apply includesInt_In, in_map_iff in Ej as ([j' g] & Hj' & Hg).
      cbn in Hj'. subst j'. exists (j, g). split; [|apply in_app_iff; now left].
      pose proof (Hsub _ Hg) as Hg'.
      apply In_indexedFrom in Hg' as [_ Hg'].
      rewrite Nat.sub_0_r, Hj in Hg'. now injection Hg' as <-.
    + exists (j, file). split; [reflexivity|].
      apply in_app_iff. right. apply filter_In. split; [assumption|].
      cbn [fst]. now rewrite Ej.
Qed.

Lemma find_by_name (l : list File) (x o : File) :
  NoDup (map Name l) ->
  In x l ->
  Name o = Name x ->
  find (sameName o) l = Some x.
Proof.
  intros Hnd Hin Hname.
  induction l as [|y l IH]; [contradiction|].
  cbn in Hnd. apply NoDup_cons_iff in Hnd as [Hy Hnd].
  cbn [find]. unfold sameName at 1.
  destruct (String.eqb_spec (Name o) (Name y)) as [E|E].
  - destruct Hin as [->|Hin]; [reflexivity|].
    exfalso. apply Hy. rewrite <- E, Hname. now apply in_map.
  - destruct Hin as [->|Hin]; [congruence|]. now apply IH.
Qed.

Lemma replaced_same_names (newFiles oldFiles news : list File) :
  NoDup (map Name newFiles) ->
  Forall2 (fun o n => Name o = Name n) oldFiles news ->
  (forall n, In n news -> In n newFiles) ->
  replaced newFiles oldFiles = news.
Proof.
  intros Hnd HF. unfold replaced, matching.
  induction HF as [|o n olds ns Hon _ IH]; intros Hin; cbn; [reflexivity|].
  rewrite (find_by_name newFiles n o Hnd) by (auto using in_eq).
  cbn. f_equal. apply IH. intros m Hm. apply Hin. now right.
Qed.

Lemma remaining_all_consumed (oldFiles : list File) :
  forall rest seen,
    NoDup (map Name (seen ++ rest)) ->
    (forall n, In n rest -> In (Name n) (map Name oldFiles)) ->
    remaining oldFiles seen rest = [].
Proof.
  induction rest as [|n rest IH]; intros seen Hnd Hold; cbn [remaining];
    [reflexivity|].
  assert (H1 : existsb (fun o => sameName o n) oldFiles = true).
  { apply existsb_exists.
    destruct (proj1 (in_map_iff _ _ _) (Hold n (in_eq _ _))) as (o & Ho & Hin).
    exists o. split; [assumption|]. unfold sameName. now apply String.eqb_eq. }
  assert (H2 : existsb (fun e => sameName e n) seen = false).
  { apply not_true_is_false. intros H.
    apply existsb_exists in H as (e & He & Hs).
    unfold sameName in Hs. apply String.eqb_eq in Hs.
    rewrite map_app in Hnd. cbn in Hnd.
    apply NoDup_remove_2 in Hnd. apply Hnd, in_app_iff. left.
    rewrite <- Hs. now apply in_map. }
  rewrite H1, H2. cbn [andb negb app].
  apply IH.
  - now rewrite <- app_assoc.
  - intros m Hm. apply Hold. now right.
Qed.

(** X4: When the new list has the names of the old one, in the same order and
    each once, the merge is the new list: nothing moves, the entries are the
    fresh ones. *)
Theorem MergeStatusFiles_same_names (oldFiles newFiles : list File) :
  NoDup (map Name oldFiles) ->
  map Name oldFiles = map Name newFiles ->
  MergeStatusFiles oldFiles newFiles = newFiles.
Proof.
  intros Hnd Hnames.
  destruct oldFiles as [|o rest].
  { reflexivity. }
  rewrite MergeStatusFiles_loops by discriminate.
  assert (HF : Forall2 (fun a b => Name a = Name b) (o :: rest) newFiles).
  { clear Hnd. revert newFiles Hnames.
    induction (o :: rest) as [|a l IH]; intros [|b m] H; cbn in H;
      try discriminate; constructor.
    - now injection H.
    - apply IH. now injection H. }
  rewrite (replaced_same_names newFiles (o :: rest) newFiles); auto.
  - rewrite remaining_all_consumed; [apply app_nil_r | |].
    + cbn [app]. now rewrite <- Hnames.
    + intros n Hn. rewrite Hnames. now apply in_map.
  - now rewrite <- Hnames.
Qed.

Lemma MergeStatusFiles_same_names_witness :
  MergeStatusFiles [fileNamed "a.txt" "M "; fileNamed "b.txt" "??"]
    [fileNamed "a.txt" "MM"; fileNamed "b.txt" "A "] =
  [fileNamed "a.txt" "MM"; fileNamed "b.txt" "A "].
Proof.
  apply MergeStatusFiles_same_names.
  - cbn. repeat (constructor; [cbn; intuition discriminate|]). constructor.
  - reflexivity.
Defined.

(** ** More on the session *)

Lemma lowerByte_idempotent (a : ascii) : lowerByte (lowerByte a) = lowerByte a.
Proof.
  unfold lowerByte.
  destruct ((65 <=? nat_of_ascii a)%nat && (nat_of_ascii a <=? 90)%nat) eqn:E.
  - apply andb_true_iff in E as [E1 E2].
    apply Nat.leb_le in E1, E2.
    rewrite nat_ascii_embedding by lia.
    destruct (Nat.leb_spec 65 (nat_of_ascii a + 32)); [|lia].
    destruct (Nat.leb_spec (nat_of_ascii a + 32) 90); [lia|]. reflexivity.
  - now rewrite E.
Qed.

Lemma ToLower_idempotent (s : string) : ToLower (ToLower s) = ToLower s.
Proof.
  induction s as [|a s IH]; cbn; [reflexivity|].
  now rewrite lowerByte_idempotent, IH.
Qed.

Lemma ToLower_empty (s : string) : (ToLower s =? "") = (s =? "").
Proof. now destruct s. Qed.

(** X11: The answer of [usingGpg] does not depend on the case of the letters of
    the configured values: two configurations that agree up to case give the
    same answer, and so does a configuration with its values in lower
    case. *)
Theorem usingGpg_ignores_case (K : Type) (c c' : GitCommand K) :
  ToLower (fst (getLocalGitConfig c "commit.gpgsign")) =
    ToLower (fst (getLocalGitConfig c' "commit.gpgsign")) ->
  ToLower (fst (getGlobalGitConfig c "commit.gpgsign")) =
    ToLower (fst (getGlobalGitConfig c' "commit.gpgsign")) ->
  usingGpg c = usingGpg c' /\
  ToLower (gpgsign c) = ToLower (gpgsign c').
Proof.
  intros Hl Hg.
  assert (E : ToLower (gpgsign c) = ToLower (gpgsign c')).
  { unfold gpgsign.
    rewrite <- (ToLower_empty (fst (getLocalGitConfig c _))), Hl, ToLower_empty.
    now destruct (fst (getLocalGitConfig c' "commit.gpgsign") =? ""). }
  split; [|exact E].
  change (usingGpg c) with
    (let value := ToLower (gpgsign c) in
     (value =? "true") || (value =? "1") || (value =? "yes") || (value =? "on")).
  change (usingGpg c') with
    (let value := ToLower (gpgsign c') in
     (value =? "true") || (value =? "1") || (value =? "yes") || (value =? "on")).
  cbv zeta. now rewrite E.
Qed.

Lemma usingGpg_ignores_case_witness :
  usingGpg (dummyGit "Yes" None) = usingGpg (dummyGit "YES" None) /\
  ToLower (gpgsign (dummyGit "Yes" None)) =
    ToLower (gpgsign (dummyGit "YES" None)).
Proof.
  apply usingGpg_ignores_case; reflexivity.
Defined.

Section MoreDriverFacts.

Variable K : Type.
Variable os : OSCommand.
Variable respond : list (Event K) -> Event K -> option string.
Variable run : K -> M K (option error).

(** X12: Only a rebase continued calls a closure: any other command makes its one
    call and no more, and unless it is an abort that succeeds it leaves the
    pending closure in place, so a skip, a merge continued or a failed abort
    keep it for later. *)
Theorem GenericMerge_other_commands (commandType command : string)
  (past : list (Event K)) (c : GitCommand K) :
  (commandType =? "rebase") && (command =? "continue") = false ->
  exists r c',
    GenericMerge os respond run commandType command past c =
      (Returns r, c', [mergeEvent os commandType command]) /\
    (c' = c \/
     command = "abort" /\ r = None /\ c' = withContinue None c) /\
    (command <> "abort" -> c' = c).
Proof.
  intros H. rewrite GenericMerge_unfold. cbn zeta. rewrite H.
  destruct (respond past _).
  { do 2 eexists. split; [reflexivity|]. split; auto. }
  do 2 eexists. split; [reflexivity|].
  destruct (String.eqb_spec command "abort"); split; auto; congruence.
Qed.

End MoreDriverFacts.

Lemma GenericMerge_other_commands_witness :
  exists r c',
    GenericMerge dummyOS allSucceed runNothing "rebase" "skip" []
      (dummyGit "" (Some 7)) =
      (Returns r, c', [mergeEvent dummyOS "rebase" "skip"]) /\
    (c' = dummyGit "" (Some 7) \/
     "skip" = "abort" /\ r = None /\
     c' = withContinue None (dummyGit "" (Some 7))) /\
    ("skip" <> "abort" -> c' = dummyGit "" (Some 7)).
Proof.
  apply (GenericMerge_other_commands nat dummyOS allSucceed runNothing
           "rebase" "skip" [] (dummyGit "" (Some 7))).
  reflexivity.
Defined.

(** ** [UnStageFile] *)

Lemma prefix_append (p s : string) : prefix p (p ++ s) = true.
Proof.
  induction p as [|a p IH]; cbn; [now destruct s|].
  destruct (ascii_dec a a); [exact IH | congruence].
Qed.

Lemma prefix_other_byte (c a : ascii) (sep s : string) :
  Ascii.eqb a c = false -> prefix (String c sep) (String a s) = false.
Proof.
  intros H. cbn. destruct (ascii_dec c a) as [->|]; [|reflexivity].
  now rewrite Ascii.eqb_refl in H.
Qed.

(** No cut falls in a stretch that lacks the first byte of the separator. *)
Lemma splitFrom_without_first (c : ascii) (sep x s : string) :
  contains c x = false ->
  forall cur,
    splitFrom (String c sep) (x ++ s) 0 cur =
    splitFrom (String c sep) s 0 (cur ++ x).
Proof.
  induction x as [|a x IH]; intros Hx cur.
  - cbn [append]. now rewrite append_nil_r.
  - cbn in Hx. destruct (Ascii.eqb a c) eqn:E; [discriminate|].
    cbn [append splitFrom]. rewrite (prefix_other_byte c a sep _ E).
    rewrite IH by assumption. now rewrite append_assoc.
Qed.

Lemma Split_plain (c : ascii) (sep name : string) :
  contains c name = false -> Split name (String c sep) = [name].
Proof.
  intros H. unfold Split. rewrite <- (append_nil_r name) at 1.
  now rewrite splitFrom_without_first.
Qed.

Lemma Split_pair (c : ascii) (sep old new : string) :
  contains c old = false ->
  contains c new = false ->
  Split (old ++ String c sep ++ new) (String c sep) = [old; new].
Proof.
  intros Ho Hn. unfold Split. rewrite splitFrom_without_first by assumption.
  cbn [append splitFrom].
  change (String c (sep ++ new)) with (String c sep ++ new).
  rewrite prefix_append. cbn [String.length].
  rewrite Nat.sub_succ, Nat.sub_0_r, splitFrom_skip.
  fold (Split new (String c sep)). now rewrite Split_plain.
Qed.

Section UnStageFileFacts.

Variable K : Type.
Variable os : OSCommand.
Variable respond : list (Event K) -> Event K -> option string.

Lemma unstageNames_runs (tracked : bool) (fileNames : list string) :
  forall past c,
    exists r n,
      unstageNames os respond
        (if tracked then "git reset HEAD " else "git rm --cached ")
        fileNames past c =
        (Returns r, c, firstn n (unstageEvents os tracked fileNames)) /\
      (r = None -> firstn n (unstageEvents (K := K) os tracked fileNames) =
                   unstageEvents os tracked fileNames) /\
      (forall e, r = Some e -> exists stderr, e = External stderr).
Proof.
  induction fileNames as [|name rest IH]; intros past c.
  - exists None, 0%nat. repeat split. discriminate.
  - cbn [unstageNames unstageEvents map]. unfold bind, call.
    destruct (respond past _) as [stderr|] eqn:E; cbn [option_map].
    + exists (Some (External stderr)), 1%nat. cbn. repeat split.
      * discriminate.
      * intros e [= <-]. now exists stderr.
    + destruct (IH (past ++ [RunCommand
                     ((if tracked then "git reset HEAD "
                       else "git rm --cached ") ++ Quote os name)])%list c)
        as (r & n & -> & Hall & Herr).
      exists r, (S n). cbn [firstn app]. repeat split.
      * intros Hr. f_equal. now apply Hall.
      * exact Herr.
Qed.


End UnStageFileFacts.


(** ** [DiscardAllFileChanges] *)

Section DiscardAllFacts.

Variable K : Type.
Variable os : OSCommand.
Variable respond : list (Event K) -> Event K -> option string.

(** X15: A tracked file is never removed: whatever [removeFile] is, the run is the
    same, and it runs the checkout unless the reset before it failed.  A
    failed reset ends the operation whatever the file.  An untracked file
    with nothing staged is removed and no command is run.  A file the parser
    found in conflict is tracked, so it is reset and checked out, never
    removed. *)
Theorem DiscardAllFileChanges_cases (file : File) (past : list (Event K))
  (c : GitCommand K) (removeFile removeFile' : string -> M K (option error)) :
  (Tracked file = true ->
   DiscardAllFileChanges os respond removeFile file past c =
   DiscardAllFileChanges os respond removeFile' file past c /\
   exists r added,
     DiscardAllFileChanges os respond removeFile file past c =
       (Returns r, c, added) /\
     (r = None ->
      added = [checkoutFileEvent os file] \/
      added = [resetEvent os file; checkoutFileEvent os file])) /\
  (forall stderr,
      HasStagedChanges file || HasMergeConflicts file = true ->
      respond past (resetEvent os file) = Some stderr ->
      DiscardAllFileChanges os respond removeFile file past c =
        (Returns (Some (External stderr)), c, [resetEvent os file])) /\
  (Tracked file = false ->
   HasStagedChanges file || HasMergeConflicts file = false ->
   DiscardAllFileChanges os respond removeFile file past c =
     removeFile (Name file) past c) /\
  (forall statusString,
      parsedFrom os statusString file ->
      HasMergeConflicts file = true ->
      DiscardAllFileChanges os respond removeFile file past c =
      DiscardAllFileChanges os respond removeFile' file past c).
Proof.
  assert (Htracked : Tracked file = true ->
    DiscardAllFileChanges os respond removeFile file past c =
    DiscardAllFileChanges os respond removeFile' file past c).
  { intros Ht. unfold DiscardAllFileChanges, bind. rewrite Ht. reflexivity. }
  split; [|split; [|split]].
  - intros Ht. split; [now apply Htracked|].
    unfold DiscardAllFileChanges, DiscardUnstagedFileChanges, bind, call, ret,
      resetEvent, checkoutFileEvent.
    rewrite Ht. cbn [negb].
    destruct (HasStagedChanges file || HasMergeConflicts file).
    + destruct (respond past _) as [stderr|]; cbn [option_map app].
      * do 2 eexists. split; [reflexivity | discriminate].
      * do 2 eexists. split; [reflexivity|]. intros _. now right.
    + cbn [app]. do 2 eexists. split; [reflexivity|]. intros _. now left.
  - intros stderr Hneeds Hfail.
    unfold DiscardAllFileChanges, bind, call, ret. rewrite Hneeds.
    unfold resetEvent in Hfail. now rewrite Hfail.
  - intros Ht Hneeds.
    unfold DiscardAllFileChanges, bind, ret. rewrite Hneeds, Ht.
    cbn [negb app]. rewrite app_nil_r.
    now destruct (removeFile (Name file) past c) as [[[r|p] c'] added].
  - intros statusString Hparsed Hconflict. apply Htracked.
    now apply (parsedFrom_invariant os statusString file Hparsed).
Qed.

End DiscardAllFacts.

Lemma DiscardAllFileChanges_cases_witness :
  DiscardAllFileChanges dummyOS allSucceed removeNothing
    (fileNamed "a.txt" "MM") [] (dummyGit "" None) =
  DiscardAllFileChanges dummyOS allSucceed removeFails
    (fileNamed "a.txt" "MM") [] (dummyGit "" None) /\
  DiscardAllFileChanges dummyOS allFail removeNothing
    (mkFile "a.txt" "M  a.txt" true false true false false false "other" "M ")
    [] (dummyGit "" None) =
  (Returns (Some (External "exit status 1")), dummyGit "" None,
   [resetEvent dummyOS
      (mkFile "a.txt" "M  a.txt" true false true false false false "other"
         "M ")]).
Proof.
  split.
  - apply (proj1 (DiscardAllFileChanges_cases nat dummyOS allSucceed
                    (fileNamed "a.txt" "MM") [] (dummyGit "" None)
                    removeNothing removeFails)).
    reflexivity.
  - apply (proj1 (proj2 (DiscardAllFileChanges_cases nat dummyOS allFail
                    (mkFile "a.txt" "M  a.txt" true false true false false
                       false "other" "M ")
                    [] (dummyGit "" None) removeNothing removeNothing)));
      reflexivity.
Defined.

(** ** [InteractiveRebase], [RewordCommit] and [CherryPickCommits] *)

Lemma serialize_picks_empty (commits : list Commit) :
  serialize (picks commits) = "" <-> commits = [].
Proof.
  split; [|now intros ->].
  destruct commits as [|c rest]; [reflexivity|]. discriminate.
Qed.

Section RebaseFacts.

Variable K : Type.
Variable os : OSCommand.
Variable respond : list (Event K) -> Event K -> option string.

(** [InteractiveRebase], case by case. *)
Lemma InteractiveRebase_unfold (commits : list Commit) (index : Z)
  (action : string) (past : list (Event K)) (c : GitCommand K) :
  InteractiveRebase os respond commits index action past c =
  match GenerateGenericRebaseTodo commits index action with
  | Panics p => (Panics p, c, [])
  | Returns (_, _, Some e) => (Returns (Some e), c, [])
  | Returns (todo, sha, None) =>
      (Returns (option_map External (respond past (rebaseEvent os sha todo))),
       c, [rebaseEvent os sha todo])
  end.
Proof.
  unfold InteractiveRebase, bind, lift, ret.
  destruct (GenerateGenericRebaseTodo commits index action)
    as [[[todo sha] [e|]]|p]; try reflexivity.
  unfold call, rebaseEvent. cbn [snd PrepareInteractiveRebaseCommand app].
  now rewrite !app_nil_r.
Qed.

(** X16: A rebase is started only with a plan: when [build] fails, its error comes
    back and nothing is run; otherwise the one command run is the rebase.
    And beginning a rebase for a commit is, past its two checks, the
    interactive rebase with the verb [edit]. *)
Theorem InteractiveRebase_runs_with_a_plan (commits : list Commit) (index : Z)
  (action : string) (past : list (Event K)) (c : GitCommand K) :
  (forall r c' added,
      InteractiveRebase os respond commits index action past c =
        (r, c', added) ->
      c' = c /\
      (added = [] \/
       exists sha todo,
         GenerateGenericRebaseTodo commits index action =
           Returns (todo, sha, None) /\
         added = [rebaseEvent os sha todo] /\
         r = Returns (option_map External
                        (respond past (rebaseEvent os sha todo)))) /\
      (forall e, r = Returns (Some e) -> InsufficientHistory e -> added = [])) /\
  (usingGpg c = false ->
   (int_sub (len commits) 1 <? index)%Z = false ->
   BeginInteractiveRebaseForCommit os respond commits index past c =
   InteractiveRebase os respond commits index "edit" past c).
Proof.
  split.
  - intros r c' added. rewrite InteractiveRebase_unfold.
    destruct (GenerateGenericRebaseTodo commits index action)
      as [[[todo sha] [e|]]|p] eqn:E.
    + intros [= <- <- <-]. repeat split; auto.
    + intros [= <- <- <-]. split; [reflexivity | split].
      * right. now exists sha, todo.
      * intros e He Hh. unfold InsufficientHistory in Hh.
        destruct (respond past _); cbn in He; [|discriminate].
        injection He as <-. intuition discriminate.
    + intros [= <- <- <-]. repeat split; auto.
  - intros Hgpg Hidx.
    rewrite BeginInteractiveRebaseForCommit_unfold, InteractiveRebase_unfold.
    now rewrite Hidx, Hgpg.
Qed.

(** X17: [RewordCommit] hands back a command or an error, never both and never
    neither, and every error is one of insufficient history.  The command is
    the one [InteractiveRebase] would run with the verb [reword], less the
    override of the editor, which is left to the user. *)
Theorem RewordCommit_hands_back (commits : list Commit) (index : Z) :
  (forall cmd err,
      RewordCommit os commits index = Returns (cmd, err) ->
      (cmd = None <-> err <> None) /\
      (forall e, err = Some e -> InsufficientHistory e)) /\
  (forall cmd past c,
      RewordCommit os commits index = Returns (Some cmd, None) ->
      let started :=
        RunPreparedCommand
          (mkCmd (Line cmd)
             (Env cmd ++ ["EDITOR=" ++ GetLazygitPath os])) in
      InteractiveRebase os respond commits index "reword" past c =
        (Returns (option_map External (respond past started)), c, [started])).
Proof.
  split.
  - intros cmd err. unfold RewordCommit.
    destruct (GenerateGenericRebaseTodo commits index "reword")
      as [[[todo sha] [e|]]|p] eqn:E; cbn; try discriminate.
    + intros [= <- <-]. split; [split; [discriminate | reflexivity]|].
      intros e' [= <-]. eapply GenerateGenericRebaseTodo_error, E.
    + intros [= <- <-]. split; [split; [discriminate | congruence]|].
      discriminate.
  - intros cmd past c. unfold RewordCommit. rewrite InteractiveRebase_unfold.
    destruct (GenerateGenericRebaseTodo commits index "reword")
      as [[[todo sha] [e|]]|p]; cbn [obind]; try discriminate.
    intros [= <-]. reflexivity.
Qed.

(** X18: Cherry-picking runs one rebase onto HEAD whose plan picks the commits in
    the reverse of the order given; the plan is empty exactly when no commit
    is given, and only then is git's sequence editor [true]. *)
Theorem CherryPickCommits_plan (commits : list Commit)
  (past : list (Event K)) (c : GitCommand K) :
  let todo := serialize (picks (rev commits)) in
  let prepared := fst (PrepareInteractiveRebaseCommand os "HEAD" todo false) in
  CherryPickCommits os respond commits past c =
    (Returns (option_map External (respond past (RunPreparedCommand prepared))),
     c, [RunPreparedCommand prepared]) /\
  (todo = "" <-> commits = []) /\
  (commits = [] -> In "GIT_SEQUENCE_EDITOR=true" (Env prepared)) /\
  (commits <> [] ->
   In ("GIT_SEQUENCE_EDITOR=" ++ GetLazygitPath os) (Env prepared)).
Proof.
  cbn zeta.
  assert (Hempty : serialize (picks (rev commits)) = "" <-> commits = []).
  { rewrite serialize_picks_empty. split; [|now intros ->].
    intros H. apply (f_equal (@rev Commit)) in H.
    now rewrite rev_involutive in H. }
  split; [|split; [exact Hempty | split]].
  - unfold CherryPickCommits. rewrite pick_fold, append_nil_r.
    cbn [snd PrepareInteractiveRebaseCommand]. reflexivity.
  - intros ->. cbn. apply in_app_iff. right. cbn. tauto.
  - intros Hne. cbn [fst PrepareInteractiveRebaseCommand Env].
    destruct (String.eqb_spec (serialize (picks (rev commits))) "") as [E|E].
    + now apply Hempty in E.
    + apply in_app_iff. right. cbn. tauto.
Qed.

End RebaseFacts.

Lemma InteractiveRebase_runs_with_a_plan_witness :
  BeginInteractiveRebaseForCommit dummyOS allSucceed threeCommits 0 []
    (dummyGit "" None) =
  InteractiveRebase dummyOS allSucceed threeCommits 0 "edit" []
    (dummyGit "" None).
Proof.
  apply (proj2 (InteractiveRebase_runs_with_a_plan nat dummyOS allSucceed
                  threeCommits 0 "edit" [] (dummyGit "" None)));
    reflexivity.
Defined.

Lemma RewordCommit_hands_back_witness :
  let cmd :=
    fst (PrepareInteractiveRebaseCommand dummyOS "c2"
           (String.append "reword c3 third" newline) false) in
  let started :=
    RunPreparedCommand (K := nat)
      (mkCmd (Line cmd) (Env cmd ++ ["EDITOR=" ++ GetLazygitPath dummyOS])) in
  InteractiveRebase dummyOS allSucceed threeCommits 0 "reword" []
    (dummyGit "" None) =
  (Returns (option_map External (allSucceed [] started)), dummyGit "" None,
   [started]).
Proof.
  apply (proj2 (RewordCommit_hands_back nat dummyOS allSucceed threeCommits 0)).
  reflexivity.
Defined.

(** ** More on [DiscardOldFileChanges] *)

Section DiscardOrderFacts.

Variable K : Type.
Variable os : OSCommand.
Variable respond : list (Event K) -> Event K -> option string.
Variable run : K -> M K (option error).

Lemma BeginInteractiveRebaseForCommit_result (commits : list Commit)
  (commitIndex : Z) (past : list (Event K)) (c : GitCommand K) :
  exists r begun,
    BeginInteractiveRebaseForCommit os respond commits commitIndex past c =
      (r, c, begun) /\
    (r <> Returns None -> begun = [] \/ exists stderr sha todo,
        r = Returns (Some (External stderr)) /\ begun = [rebaseEvent os sha todo]).
Proof.
  rewrite BeginInteractiveRebaseForCommit_unfold.
  destruct (int_sub (len commits) 1 <? commitIndex)%Z.
  { do 2 eexists. split; [reflexivity | now left]. }
  destruct (usingGpg c).
  { do 2 eexists. split; [reflexivity | now left]. }
  destruct (GenerateGenericRebaseTodo commits commitIndex "edit")
    as [[[todo sha] [e|]]|p].
  - do 2 eexists. split; [reflexivity | now left].
  - do 2 eexists. split; [reflexivity|].
    destruct (respond past _) as [stderr|]; cbn.
    + intros _. right. now exists stderr, sha, todo.
    + congruence.
  - do 2 eexists. split; [reflexivity | now left].
Qed.

Lemma DiscardOldFileChanges_after_failed_begin (commits : list Commit)
  (commitIndex : Z) (fileName : string) (past : list (Event K))
  (c c1 : GitCommand K) (r : outcome (option error)) (begun : list (Event K)) :
  BeginInteractiveRebaseForCommit os respond commits commitIndex past c =
    (r, c1, begun) ->
  r <> Returns None ->
  DiscardOldFileChanges os respond run commits commitIndex fileName past c =
    (r, c1, begun).
Proof.
  intros HB Hr. unfold DiscardOldFileChanges. unfold bind at 1. rewrite HB.
  destruct r as [[e|]|p]; [|congruence|reflexivity].
  unfold ret. now rewrite app_nil_r.
Qed.

(** The amend and what follows it, whatever the exits. *)
Lemma amend_tail (past : list (Event K)) (c : GitCommand K) :
  usingGpg c = false ->
  bind (AmendHead os respond)
    (fun amended =>
       match amended with
       | (Some _, _) => ret (Some (Plain "received unexpected pointer to cmd"))
       | (None, Some e) => ret (Some e)
       | (None, None) => GenericMerge os respond run "rebase" "continue"
       end) past c =
  match respond past amendEvent with
  | Some stderr => (Returns (Some (External stderr)), c, [amendEvent])
  | None =>
      let '(r, c', added) :=
        GenericMerge os respond run "rebase" "continue"
          (past ++ [amendEvent])%list c in
      (r, c', amendEvent :: added)
  end.
Proof.
  intros Hgpg.
  unfold bind at 1. unfold AmendHead, bind, getUsingGpg, call, ret.
  rewrite Hgpg. cbn [app]. rewrite (app_nil_r past). unfold amendEvent.
  destruct (respond past _); reflexivity.
Qed.

Ltac discard_leaf :=
  intros [= <- <- <-] Hn;
  split; [reflexivity|];
  eexists; split; [reflexivity|];
  unfold isPrefixOf, removal, restore, probeEvent, checkoutEvent, amendEvent;
  first [ left; eexists; cbn [app]; reflexivity
        | right; eexists; cbn [app]; reflexivity ].

Ltac invoked_absurd :=
  intros [= <- <- <-] Hn; exfalso; unfold noneInvoked in Hn;
  repeat (rewrite existsb_app in Hn); cbn in Hn;
  rewrite ?orb_true_r in Hn; discriminate.

Ltac discard_tail run Hgpg c :=
  rewrite (amend_tail _ c Hgpg);
  destruct (respond _ amendEvent) as [?e|]; [discard_leaf|];
  rewrite GenericMerge_unfold; cbn zeta;
  destruct (respond _ (mergeEvent _ _ _)) as [?e|]; [discard_leaf|];
  cbn [andb String.eqb Ascii.eqb];
  destruct (onSuccessfulContinue c) as [?f|]; [|discard_leaf];
  destruct (run _ _ _) as [[? ?] ?]; invoked_absurd.

Lemma DiscardOldFileChanges_after_begin (commits : list Commit)
  (commitIndex : Z) (fileName : string) (past : list (Event K))
  (c c' : GitCommand K) (r : outcome (option error)) (begun added : list (Event K)) :
  BeginInteractiveRebaseForCommit os respond commits commitIndex past c =
    (Returns None, c, begun) ->
  DiscardOldFileChanges os respond run commits commitIndex fileName past c =
    (r, c', added) ->
  noneInvoked added ->
  c' = c /\
  exists rest, added = (begun ++ rest)%list /\
    (isPrefixOf rest (probeEvent fileName :: removal os fileName) \/
     isPrefixOf rest (probeEvent fileName :: restore os fileName)).
Proof.
  intros HB.
  destruct (BeginInteractiveRebaseForCommit_begun K os respond _ _ _ _ _ _ HB)
    as (_ & Hgpg & _).
  unfold DiscardOldFileChanges. unfold bind at 1. rewrite HB.
  unfold bind at 1. unfold call at 1.
  destruct (respond (past ++ begun)%list _) as [stderr|]; cbn [option_map].
  - unfold bind at 1. unfold bind at 1. unfold call at 1.
    destruct (respond _ (Remove fileName)) as [e1|]; cbn [option_map].
    + unfold ret. discard_leaf.
    + unfold StageFile, call at 1.
      destruct (respond _ (RunCommand ("git add " ++ _))) as [e2|];
        cbn [option_map].
      * unfold ret. discard_leaf.
      * discard_tail run Hgpg c.
  - unfold bind at 1. unfold CheckoutFile, call at 1.
    change ("git checkout " ++ "HEAD^" ++ " " ++ fileName)
      with ("git checkout HEAD^ " ++ fileName).
    destruct (respond _ (RunCommand ("git checkout HEAD^ " ++ _))) as [e1|];
      cbn [option_map].
    + unfold ret. discard_leaf.
    + discard_tail run Hgpg c.
Qed.

(** X19: When the rebase cannot be begun, by a failed check, a panic or a failed
    command, [DiscardOldFileChanges] ends as the beginning did and touches
    nothing more; with signing in effect it returns an error with nothing
    run at all. *)
Theorem DiscardOldFileChanges_stops_at_validation (commits : list Commit)
  (commitIndex : Z) (fileName : string) (past : list (Event K))
  (c : GitCommand K) :
  (forall r c1 begun,
      BeginInteractiveRebaseForCommit os respond commits commitIndex past c =
        (r, c1, begun) ->
      r <> Returns None ->
      DiscardOldFileChanges os respond run commits commitIndex fileName past c
        = (r, c1, begun)) /\
  (usingGpg c = true ->
   exists e,
     DiscardOldFileChanges os respond run commits commitIndex fileName past c
       = (Returns (Some e), c, [])).
Proof.
  split.
  - intros r c1 begun.
    apply DiscardOldFileChanges_after_failed_begin.
  - intros Hgpg.
    assert (exists e,
      BeginInteractiveRebaseForCommit os respond commits commitIndex past c =
        (Returns (Some e), c, [])) as [e He].
    { rewrite BeginInteractiveRebaseForCommit_unfold, Hgpg.
      destruct (int_sub (len commits) 1 <? commitIndex)%Z; now eexists. }
    exists e.
    now apply (DiscardOldFileChanges_after_failed_begin _ _ _ _ _ _ _ _ He).
Qed.

(** X20: What [DiscardOldFileChanges] itself runs is always a beginning of one of
    two sequences: the rebase, the probe, then either the removal, its
    staging, the amend and the continue, or the checkout, the amend and the
    continue.  So a file is never both removed and checked out, and nothing
    is run out of order.  The [GitCommand] is left as it was. *)
Theorem DiscardOldFileChanges_order (commits : list Commit)
  (commitIndex : Z) (fileName : string) (past : list (Event K))
  (c c' : GitCommand K) (r : outcome (option error))
  (added : list (Event K)) :
  DiscardOldFileChanges os respond run commits commitIndex fileName past c =
    (r, c', added) ->
  noneInvoked added ->
  c' = c /\
  exists begun rest,
    added = (begun ++ rest)%list /\
    (begun = [] \/ exists sha todo, begun = [rebaseEvent os sha todo]) /\
    (isPrefixOf rest (probeEvent fileName :: removal os fileName) \/
     isPrefixOf rest (probeEvent fileName :: restore os fileName)).
Proof.
  destruct (BeginInteractiveRebaseForCommit_result commits commitIndex past c)
    as (r0 & begun & HB & Hbegun).
  destruct r0 as [[e|]|p].
  - rewrite (DiscardOldFileChanges_after_failed_begin _ _ _ _ _ _ _ _ HB)
      by discriminate.
    intros [= <- <- <-] _. split; [reflexivity|].
    exists begun, []. rewrite app_nil_r. split; [reflexivity|]. split.
    + destruct Hbegun as [->|(stderr & sha & todo & _ & ->)];
        [discriminate | now left | right; now exists sha, todo].
    + left. now eexists.
  - intros H Hn.
    destruct (DiscardOldFileChanges_after_begin _ _ _ _ _ _ _ _ _ HB H Hn)
      as (Hc & rest & Hadded & Hprefix).
    split; [exact Hc|].
    exists begun, rest. split; [exact Hadded | split; [|exact Hprefix]].
    destruct (BeginInteractiveRebaseForCommit_begun K os respond _ _ _ _ _ _ HB)
      as (_ & _ & sha & todo & ->).
    right. now exists sha, todo.
  - rewrite (DiscardOldFileChanges_after_failed_begin _ _ _ _ _ _ _ _ HB)
      by discriminate.
    intros [= <- <- <-] _. split; [reflexivity|].
    exists begun, []. rewrite app_nil_r. split; [reflexivity|]. split.
    + destruct Hbegun as [->|(stderr & sha & todo & Hp & _)];
        [discriminate | now left | discriminate].
    + left. now eexists.
Qed.

End DiscardOrderFacts.

Lemma DiscardOldFileChanges_stops_at_validation_witness :
  exists e,
    DiscardOldFileChanges dummyOS allSucceed runNothing threeCommits 0
      "f.txt" [] (dummyGit "on" None) = (Returns (Some e), dummyGit "on" None, []).
Proof.
  apply (proj2 (DiscardOldFileChanges_stops_at_validation nat dummyOS
                  allSucceed runNothing threeCommits 0 "f.txt" []
                  (dummyGit "on" None))).
  reflexivity.
Defined.

Lemma DiscardOldFileChanges_order_witness :
  dummyGit "" None = dummyGit "" None /\
  exists begun rest,
    [rebaseEvent (K := nat) dummyOS "c2"
       (String.append "edit c3 third" newline);
     probeEvent "f.txt"; Remove "f.txt"; RunCommand "git add 'f.txt'";
     amendEvent; mergeEvent dummyOS "rebase" "continue"] =
      (begun ++ rest)%list /\
    (begun = [] \/ exists sha todo, begun = [rebaseEvent dummyOS sha todo]) /\
    (isPrefixOf rest (probeEvent "f.txt" :: removal dummyOS "f.txt") \/
     isPrefixOf rest (probeEvent "f.txt" :: restore dummyOS "f.txt")).
Proof.
  apply (DiscardOldFileChanges_order nat dummyOS absentInParent runNothing
           threeCommits 0 "f.txt" [] (dummyGit "" None) (dummyGit "" None)
           (Returns None)); reflexivity.
Defined.

Lemma CherryPickCommits_plan_witness :
  In "GIT_SEQUENCE_EDITOR=true"
    (Env (fst (PrepareInteractiveRebaseCommand dummyOS "HEAD"
                 (serialize (picks (rev []))) false))) /\
  In ("GIT_SEQUENCE_EDITOR=" ++ GetLazygitPath dummyOS)
    (Env (fst (PrepareInteractiveRebaseCommand dummyOS "HEAD"
                 (serialize (picks (rev threeCommits))) false))).
Proof.
  split.
  - apply (proj1 (proj2 (proj2 (CherryPickCommits_plan nat dummyOS allSucceed
                                  [] [] (dummyGit "" None))))).
    reflexivity.
  - apply (proj2 (proj2 (proj2 (CherryPickCommits_plan nat dummyOS allSucceed
                                  threeCommits [] (dummyGit "" None))))).
    discriminate.
Defined.

(** ** The shape of the plan *)

Lemma verbsFrom_picks (actionIndex : Z) (action : string)
  (commits : list Commit) :
  forall i,
    (i + len commits <= actionIndex)%Z ->
    verbsFrom actionIndex action i commits = picks commits.
Proof.
  unfold len.
  induction commits as [|c rest IH]; intros i H; cbn [verbsFrom picks map];
    [reflexivity|].
  cbn [List.length] in H.
  destruct (Z.eqb_spec i actionIndex); [lia|].
  f_equal. apply IH. lia.
Qed.

Lemma verbsFrom_app (actionIndex : Z) (action : string)
  (l1 l2 : list Commit) :
  forall i,
    verbsFrom actionIndex action i (l1 ++ l2) =
    (verbsFrom actionIndex action i l1 ++
     verbsFrom actionIndex action (i + len l1) l2)%list.
Proof.
  unfold len.
  induction l1 as [|c rest IH]; intros i; cbn [verbsFrom app List.length].
  - now rewrite Z.add_0_r.
  - rewrite IH.
    now replace (i + 1 + Z.of_nat (List.length rest))%Z
      with (i + Z.of_nat (S (List.length rest)))%Z by lia.
Qed.

Lemma firstn_succ_nth {A : Type} (l : list A) (n : nat) (a : A) :
  nth_error l n = Some a -> firstn (S n) l = (firstn n l ++ [a])%list.
Proof.
  revert n. induction l as [|x l IH]; intros [|n] H; cbn in H;
    try discriminate.
  - now injection H as ->.
  - cbn [firstn app]. f_equal. now apply IH.
Qed.

(** X6: The plan of a call that returns one, for an index from 0 on: the commit
    acted on comes first with its verb, the commits above it follow as picks,
    oldest first; for squash and fixup the commit below is picked before it,
    so a fold always has a pick beneath it to fold into. *)
Theorem GenerateGenericRebaseTodo_shape (commits : list Commit)
  (actionIndex : Z) (action todo sha : string) :
  is_int actionIndex ->
  (0 <= actionIndex)%Z ->
  GenerateGenericRebaseTodo commits actionIndex action =
    Returns (todo, sha, None) ->
  exists target,
    nth_error commits (Z.to_nat actionIndex) = Some target /\
    let above := picks (rev (firstn (Z.to_nat actionIndex) commits)) in
    if isFold action
    then exists below,
        nth_error commits (S (Z.to_nat actionIndex)) = Some below /\
        todo = serialize (("pick", below) :: (action, target) :: above)
    else todo = serialize ((action, target) :: above).
Proof.
  intros Hint H0 H.
  destruct (GenerateGenericRebaseTodo_returns _ _ _ _ _ Hint H)
    as (_ & Hrange & -> & _).
  set (n := Z.to_nat actionIndex).
  assert (Hn : (n < List.length commits)%nat)
    by (unfold len in Hrange; destruct (isFold action); lia).
  destruct (nth_error commits n) as [target|] eqn:Et;
    [|apply nth_error_None in Et; lia].
  exists target. split; [reflexivity|]. cbn zeta.
  assert (Hfirst : List.length (firstn n commits) = n)
    by (rewrite length_firstn; lia).
  assert (Hone : verbsFrom actionIndex action 0 (firstn (S n) commits) =
                 (picks (firstn n commits) ++ [(action, target)])%list).
  { rewrite (firstn_succ_nth commits n target Et), verbsFrom_app.
    rewrite verbsFrom_picks by (unfold len; lia).
    cbn [verbsFrom]. unfold len. rewrite Hfirst.
    destruct (Z.eqb_spec (0 + Z.of_nat n) actionIndex); [reflexivity | lia]. }
  assert (Hrev : forall l, rev (picks l) = picks (rev l))
    by (intros l; unfold picks; now rewrite map_rev).
  destruct (isFold action).
  - assert (Hb : (S n < List.length commits)%nat)
      by (unfold len in Hrange; lia).
    destruct (nth_error commits (S n)) as [below|] eqn:Eb;
      [|apply nth_error_None in Eb; lia].
    exists below. split; [reflexivity|].
    replace (Z.to_nat (actionIndex + 1 + 1)) with (S (S n)) by lia.
    rewrite todoLoop_serialize, append_nil_r.
    rewrite (firstn_succ_nth commits (S n) below Eb), verbsFrom_app, Hone.
    cbn [verbsFrom]. unfold len. rewrite length_firstn.
    destruct (Z.eqb_spec (0 + Z.of_nat (Nat.min (S n) (List.length commits)))
                actionIndex); [lia|].
    rewrite !rev_app_distr. cbn [rev app]. now rewrite Hrev.
  - replace (Z.to_nat (actionIndex + 1 + 0)) with (S n) by lia.
    rewrite todoLoop_serialize, append_nil_r, Hone.
    rewrite rev_app_distr. cbn [rev app]. now rewrite Hrev.
Qed.

Lemma GenerateGenericRebaseTodo_shape_witness :
  exists target,
    nth_error fourCommits (Z.to_nat 1) = Some target /\
    let above := picks (rev (firstn (Z.to_nat 1) fourCommits)) in
    if isFold "fixup"
    then exists below,
        nth_error fourCommits (S (Z.to_nat 1)) = Some below /\
        String.append "pick c2 second" (String "010"
          (String.append "fixup c3 third" (String "010"
             (String.append "pick c4 fourth" newline)))) =
        serialize (("pick", below) :: ("fixup", target) :: above)
    else String.append "pick c2 second" (String "010"
          (String.append "fixup c3 third" (String "010"
             (String.append "pick c4 fourth" newline)))) =
         serialize (("fixup", target) :: above).
Proof.
  apply (GenerateGenericRebaseTodo_shape fourCommits 1 "fixup" _ "c1").
  - unfold is_int, int_min, int_max. lia.
  - lia.
  - reflexivity.
Defined.

(** ** A pending closure is called once *)

Section OneShot.

Variable K : Type.
Variable os : OSCommand.
Variable respond : list (Event K) -> Event K -> option string.
Variable run : K -> M K (option error).

Lemma noneInvoked_filter (events : list (Event K)) :
  noneInvoked events -> filter isInvoked events = [].
Proof.
  unfold noneInvoked. induction events as [|e rest IH]; cbn; [reflexivity|].
  destruct (isInvoked e); [discriminate | exact IH].
Qed.

(** X13: When the closures queue nothing and call no closure themselves, a
    sequence of continue, abort and skip calls a closure at most once,
    however the commands end: the closure pending at the start, at the first
    rebase continued that succeeds, unless an abort succeeds before it. *)
Theorem GenericMerges_fires_once (commands : list (string * string)) :
  (forall f past c,
      noneInvoked (snd (run f past c)) /\
      (onSuccessfulContinue c = None ->
       onSuccessfulContinue (snd (fst (run f past c))) = None)) ->
  forall past c,
    (List.length
       (filter isInvoked
          (snd (GenericMerges os respond run commands past c))) <= 1)%nat.
Proof.
  intros Hquiet.
  assert (Hnone : forall cmds past c,
    onSuccessfulContinue c = None ->
    filter isInvoked (snd (GenericMerges os respond run cmds past c)) = []).
  { intros cmds past c Hc.
    destruct (GenericMerges_nothing_pending K os respond run cmds past c Hc)
      as (c' & added & -> & _ & Hn).
    now apply noneInvoked_filter. }
  induction commands as [|[commandType command] rest IH]; intros past c.
  - cbn. lia.
  - cbn [GenericMerges]. unfold bind. rewrite GenericMerge_unfold. cbn zeta.
    set (ev := mergeEvent os commandType command).
    destruct (respond past ev) as [stderr|].
    { specialize (IH (past ++ [ev])%list c).
      destruct (GenericMerges os respond run rest (past ++ [ev])%list c)
        as [[r1 c1] added1].
      cbn [snd app filter isInvoked ev mergeEvent] in *. exact IH. }
    destruct ((commandType =? "rebase") && (command =? "continue")),
      (onSuccessfulContinue c) as [f|] eqn:Hc.
    + destruct (Hquiet f (past ++ [ev; Invoked f])%list (withContinue None c))
        as [Hq Hkeep].
      destruct (run f (past ++ [ev; Invoked f])%list (withContinue None c))
        as [[[r1|p] c1] added1]; cbn [snd fst] in Hq, Hkeep.
      * specialize (Hnone rest (past ++ ev :: Invoked f :: added1)%list c1
                      (Hkeep eq_refl)).
        destruct (GenericMerges os respond run rest
                    (past ++ ev :: Invoked f :: added1)%list c1)
          as [[r2 c2] added2].
        cbn [snd] in *.
        change (ev :: Invoked f :: added1)
          with ([ev; Invoked f] ++ added1)%list.
        rewrite <- app_assoc, !filter_app, Hnone, (noneInvoked_filter _ Hq).
        cbn. lia.
      * cbn [snd].
        change (ev :: Invoked f :: added1)
          with ([ev; Invoked f] ++ added1)%list.
        rewrite filter_app, (noneInvoked_filter _ Hq). cbn. lia.
    + assert (Hc' : onSuccessfulContinue
                      (if command =? "abort" then withContinue None c else c)
                    = None) by (now destruct (command =? "abort")).
      specialize (Hnone rest (past ++ [ev])%list _ Hc').
      destruct (GenericMerges os respond run rest (past ++ [ev])%list _)
        as [[r1 c1] added1].
      cbn [snd app filter isInvoked ev mergeEvent] in *. rewrite Hnone.
      cbn. lia.
    + destruct (String.eqb_spec command "abort").
      * specialize (Hnone rest (past ++ [ev])%list (withContinue None c)
                      eq_refl).
        destruct (GenericMerges os respond run rest (past ++ [ev])%list _)
          as [[r1 c1] added1].
        cbn [snd app filter isInvoked ev mergeEvent] in *. rewrite Hnone.
        cbn. lia.
      * specialize (IH (past ++ [ev])%list c).
        destruct (GenericMerges os respond run rest (past ++ [ev])%list c)
          as [[r1 c1] added1].
        cbn [snd app filter isInvoked ev mergeEvent] in *. exact IH.
    + assert (Hc' : onSuccessfulContinue
                      (if command =? "abort" then withContinue None c else c)
                    = None) by (now destruct (command =? "abort")).
      specialize (Hnone rest (past ++ [ev])%list _ Hc').
      destruct (GenericMerges os respond run rest (past ++ [ev])%list _)
        as [[r1 c1] added1].
      cbn [snd app filter isInvoked ev mergeEvent] in *. rewrite Hnone.
      cbn. lia.
Qed.

End OneShot.

Lemma GenericMerges_fires_once_witness :
  (List.length
     (filter isInvoked
        (snd (GenericMerges dummyOS allSucceed runNothing
                [("rebase", "skip"); ("rebase", "continue");
                 ("rebase", "continue")] [] (dummyGit "" (Some 7))))) <= 1)%nat.
Proof.
  apply (GenericMerges_fires_once nat dummyOS allSucceed runNothing).
  intros f past c. split; [reflexivity | intros H; exact H].
Defined.
